(** * Example 3.5 (TP 03): gas / over-temperature alarm with code lock

    A shallow embedding of [main.cpp]: the globals and output pins of the
    program form one record, every [void] function of the program is a
    function on that record, and one pass of the [while (true)] loop of
    [main] is [mainLoopIteration].

    Conventions of the embedding.
    - [int] is a 32-bit two's-complement integer, held in [Z]; additions wrap
      ([add32]).
    - [float] and [double] arithmetic is the target's; it is kept abstract in
      the class [FloatArith], so every theorem holds for any floating-point
      unit.  [QFloat] is an exact instance used to run the program on
      concrete inputs.
    - Every read of a pin during a pass of the loop has a value of its own
      ([Inputs]): a pin that the pass reads twice may change in between.
      The bytes that the serial reads of that pass return are given as a
      list, a read with no byte left never returns ([None]).
    - [events] is the history of the calls [printf], [uartUsb.write] and
      [areEqual] made so far, oldest first.
    - Arrays are lists; the indices the program uses stay in range (see
      [reachable_wf]), an access out of range is undefined in C++ and is not
      given a meaning here beyond that of [arrayRead] and [arrayWrite]. *)

From Stdlib Require Import ZArith QArith Qabs Qround String Ascii List Lia Bool.
From Stdlib Require Import DecimalString.
From stdpp Require Import base list strings.
From coqutil Require Import Datatypes.RecordSettersUsingExistingGetters.

#[local] Open Scope Z_scope.

(** ** Machine integers *)

Definition wrap32 (z : Z) : Z := (z + 2 ^ 31) mod 2 ^ 32 - 2 ^ 31.
Definition add32 (a b : Z) : Z := wrap32 (a + b).
Definition INT_MAX : Z := 2 ^ 31 - 1.

(** ** Defines *)

Definition NUMBER_OF_KEYS : Z := 4.
Definition BLINKING_TIME_GAS_ALARM : Z := 1000.
Definition BLINKING_TIME_OVER_TEMP_ALARM : Z := 500.
Definition BLINKING_TIME_GAS_AND_OVER_TEMP_ALARM : Z := 100.
Definition NUMBER_OF_AVG_SAMPLES : Z := 100.
Definition OVER_TEMP_LEVEL : Z := 50.
Definition TIME_INCREMENT_MS : Z := 10.

(** ** Floating point *)

Class FloatArith := {
  float : Type;
  double : Type;
  d_lit : Q -> double;              (* a decimal literal such as 3.3 *)
  f_of_d : double -> float;         (* conversion on assignment or return *)
  d_of_f : float -> double;         (* promotion in mixed arithmetic *)
  f_of_int : Z -> float;            (* promotion of an int operand *)
  f_add : float -> float -> float;
  f_div : float -> float -> float;
  f_gt : float -> float -> bool;
  d_add : double -> double -> double;
  d_mul : double -> double -> double;
  d_div : double -> double -> double;
  sprintf_2f : double -> string     (* the conversion %.2f of sprintf *)
}.

(** ** Text *)

Definition CRLF : string := String "013" (String "010" EmptyString).

(** ** Observable calls *)

Inductive Event :=
| Printf (text : string)                (* printf(text) *)
| UartWrite (buf : string) (len : nat)  (* uartUsb.write(buf, len) *)
| AreEqual (result : bool).             (* areEqual() returned result *)

Inductive PinDirection := PinInput | PinOutput.

Section Program.
Context {FA : FloatArith}.

(** ** The pins, as read during one pass of the loop *)

(** One field for each read of a pin in a pass.  [alarmDeactivationUpdate]
    reads the four keys and Enter twice: first in the test of line 303
    (the fields ending in [Latch]), then Enter in the test of line 306 and
    the keys in lines 307-310.  [mq2] is read by [alarmActivationUpdate]
    (line 258) and again by command '2' of [uartTask] (line 342,
    [mq2Command]).  The pins may change between two reads. *)
Record Inputs := {
  enterButton : bool;
  alarmTestButton : bool;
  aButton : bool;
  bButton : bool;
  cButton : bool;
  dButton : bool;
  mq2 : bool;
  potentiometer : float;
  lm35 : float;
  aButtonLatch : bool;
  bButtonLatch : bool;
  cButtonLatch : bool;
  dButtonLatch : bool;
  enterButtonLatch : bool;
  mq2Command : bool
}.

(** ** Globals, the static local of [alarmActivationUpdate], output pins *)

Record State := {
  alarmState : bool;
  incorrectCode : bool;
  overTempDetector : bool;
  numberOfIncorrectCodes : Z;
  buttonBeingCompared : Z;
  codeSequence : list Z;
  buttonsPressed : list Z;
  accumulatedTimeAlarm : Z;
  gasDetectorState : bool;
  overTempDetectorState : bool;
  potentiometerReading : float;
  lm35ReadingsAverage : float;
  lm35ReadingsSum : float;
  lm35ReadingsArray : list float;
  lm35TempC : float;
  lm35SampleIndex : Z;
  alarmLed : bool;
  incorrectCodeLed : bool;
  systemBlockedLed : bool;
  sirenPinDirection : PinDirection;
  sirenPin : bool;
  events : list Event
}.

Definition arrayRead {A} (d : A) (l : list A) (i : Z) : A :=
  nth (Z.to_nat i) l d.

Definition arrayWrite {A} (l : list A) (i : Z) (v : A) : list A :=
  <[Z.to_nat i := v]> l.

Definition emit (e : Event) (s : State) : State :=
  s<|events := events s ++ [e]|>.

Definition uartWrite (buf : string) (len : nat) (s : State) : State :=
  emit (UartWrite buf len) s.

(** The values of the globals before [main] runs: the initialisers of the
    declarations, zero for [lm35ReadingsArray] and for the pins. *)
Definition powerOn : State := {|
  alarmState := false;
  incorrectCode := false;
  overTempDetector := false;
  numberOfIncorrectCodes := 0;
  buttonBeingCompared := 0;
  codeSequence := [1; 1; 0; 0];
  buttonsPressed := [0; 0; 0; 0];
  accumulatedTimeAlarm := 0;
  gasDetectorState := false;
  overTempDetectorState := false;
  potentiometerReading := f_of_d (d_lit 0);
  lm35ReadingsAverage := f_of_d (d_lit 0);
  lm35ReadingsSum := f_of_d (d_lit 0);
  lm35ReadingsArray := replicate (Z.to_nat NUMBER_OF_AVG_SAMPLES) (f_of_int 0);
  lm35TempC := f_of_d (d_lit 0);
  lm35SampleIndex := 0;
  alarmLed := false;
  incorrectCodeLed := false;
  systemBlockedLed := false;
  sirenPinDirection := PinInput;
  sirenPin := false;
  events := []
|}.

Definition inputsInit (s : State) : State :=
  s<|sirenPinDirection := PinInput|>.

Definition outputsInit (s : State) : State :=
  s<|alarmLed := false|><|incorrectCodeLed := false|><|systemBlockedLed := false|>.

(** ** Temperature conversion *)

Definition analogReadingScaledWithTheLM35Formula (analogReading : float) : float :=
  f_of_d (d_div (d_mul (d_of_f analogReading) (d_lit (33 # 10))) (d_lit (1 # 100))).

Definition celsiusToFahrenheit (tempInCelsiusDegrees : float) : float :=
  f_of_d (d_add (d_div (d_mul (d_of_f tempInCelsiusDegrees) (d_lit 9)) (d_lit 5))
                (d_lit 32)).

(** ** alarmActivationUpdate, in the three blocks of its body *)

(** [for (i = 0; i < NUMBER_OF_AVG_SAMPLES; i++)
       lm35ReadingsSum = lm35ReadingsSum + lm35ReadingsArray[i];] *)
Definition sumReadings (s : State) : State :=
  fold_left
    (fun s i =>
       s<|lm35ReadingsSum :=
            f_add (lm35ReadingsSum s)
                  (arrayRead (f_of_int 0) (lm35ReadingsArray s) (Z.of_nat i))|>)
    (seq 0 (Z.to_nat NUMBER_OF_AVG_SAMPLES)) s.

Definition blink (period : Z) (s : State) : State :=
  if period <=? accumulatedTimeAlarm s
  then s<|accumulatedTimeAlarm := 0|><|alarmLed := negb (alarmLed s)|>
  else s.

(** Lines 239-250: store the reading, advance the index, average, convert. *)
Definition sampleTemperature (i : Inputs) (s : State) : State :=
  let s := s<|lm35ReadingsArray :=
                arrayWrite (lm35ReadingsArray s) (lm35SampleIndex s) (lm35 i)|> in
  let s := s<|lm35SampleIndex := add32 (lm35SampleIndex s) 1|> in
  let s := if NUMBER_OF_AVG_SAMPLES <=? lm35SampleIndex s
           then s<|lm35SampleIndex := 0|> else s in
  let s := s<|lm35ReadingsSum := f_of_d (d_lit 0)|> in
  let s := sumReadings s in
  let s := s<|lm35ReadingsAverage :=
                f_div (lm35ReadingsSum s) (f_of_int NUMBER_OF_AVG_SAMPLES)|> in
  s<|lm35TempC := analogReadingScaledWithTheLM35Formula (lm35ReadingsAverage s)|>.

(** Lines 252-270: the three causes of the alarm. *)
Definition detectCauses (i : Inputs) (s : State) : State :=
  let s := if f_gt (lm35TempC s) (f_of_int OVER_TEMP_LEVEL)
           then s<|overTempDetector := true|>
           else s<|overTempDetector := false|> in
  let s := if negb (mq2 i)
           then s<|gasDetectorState := true|><|alarmState := true|> else s in
  let s := if overTempDetector s
           then s<|overTempDetectorState := true|><|alarmState := true|> else s in
  if alarmTestButton i
  then s<|overTempDetectorState := true|><|gasDetectorState := true|>
        <|alarmState := true|>
  else s.

(** Lines 271-297: siren and blinking LED while the alarm is on. *)
Definition driveAlarm (s : State) : State :=
  if alarmState s then
    let s := s<|accumulatedTimeAlarm :=
                  add32 (accumulatedTimeAlarm s) TIME_INCREMENT_MS|> in
    let s := s<|sirenPinDirection := PinOutput|> in
    let s := s<|sirenPin := false|> in
    if gasDetectorState s && overTempDetectorState s then
      blink BLINKING_TIME_GAS_AND_OVER_TEMP_ALARM s
    else if gasDetectorState s then
      blink BLINKING_TIME_GAS_ALARM s
    else if overTempDetectorState s then
      blink BLINKING_TIME_OVER_TEMP_ALARM s
    else s
  else
    s<|alarmLed := false|><|gasDetectorState := false|>
     <|overTempDetectorState := false|><|sirenPinDirection := PinInput|>.

Definition alarmActivationUpdate (i : Inputs) (s : State) : State :=
  driveAlarm (detectCauses i (sampleTemperature i s)).

(** ** areEqual and alarmDeactivationUpdate *)

(** The loop of [areEqual] from index [i], [n] positions left. *)
Fixpoint areEqualLoop (n : nat) (i : Z) (s : State) : bool :=
  match n with
  | O => true
  | S n' =>
      if negb (arrayRead 0 (codeSequence s) i =? arrayRead 0 (buttonsPressed s) i)
      then false
      else areEqualLoop n' (i + 1) s
  end.

Definition areEqual (s : State) : bool :=
  areEqualLoop (Z.to_nat NUMBER_OF_KEYS) 0 s.

(** The test of line 303 reads the keys and Enter ([aButtonLatch] to
    [enterButtonLatch]); the test of line 306 reads Enter again and lines
    307-310 read the keys again ([enterButton], [aButton] to [dButton]). *)
Definition alarmDeactivationUpdate (i : Inputs) (s : State) : State :=
  if numberOfIncorrectCodes s <? 5 then
    let s := if aButtonLatch i && bButtonLatch i && cButtonLatch i
                && dButtonLatch i && negb (enterButtonLatch i)
             then s<|incorrectCodeLed := false|> else s in
    if enterButton i && negb (incorrectCodeLed s) && alarmState s then
      let s := s<|buttonsPressed :=
                    arrayWrite (buttonsPressed s) 0 (Z.b2z (aButton i))|> in
      let s := s<|buttonsPressed :=
                    arrayWrite (buttonsPressed s) 1 (Z.b2z (bButton i))|> in
      let s := s<|buttonsPressed :=
                    arrayWrite (buttonsPressed s) 2 (Z.b2z (cButton i))|> in
      let s := s<|buttonsPressed :=
                    arrayWrite (buttonsPressed s) 3 (Z.b2z (dButton i))|> in
      let r := areEqual s in
      let s := emit (AreEqual r) s in
      if r then
        s<|alarmState := false|><|numberOfIncorrectCodes := 0|>
      else
        s<|incorrectCodeLed := true|>
         <|numberOfIncorrectCodes := add32 (numberOfIncorrectCodes s) 1|>
    else s
  else
    s<|systemBlockedLed := true|>.

(** ** uartTask *)

(** The loop shared by the commands '4' and '5':
    [for (buttonBeingCompared = 0; buttonBeingCompared < NUMBER_OF_KEYS;
          buttonBeingCompared++) { read one byte; echo "*"; body }],
    with [n] passes left.  A read with no byte left blocks for ever. *)
Fixpoint keysLoop (body : ascii -> State -> State) (n : nat)
    (rx : list ascii) (s : State) : option (list ascii * State) :=
  match n with
  | O => Some (rx, s)
  | S n' =>
      match rx with
      | [] => None
      | receivedChar :: rx =>
          let s := uartWrite "*" 1 s in
          let s := body receivedChar s in
          let s := s<|buttonBeingCompared := add32 (buttonBeingCompared s) 1|> in
          keysLoop body n' rx s
      end
  end.

(** Body of the loop of command '4'. *)
Definition compareKey (receivedChar : ascii) (s : State) : State :=
  if Ascii.eqb receivedChar "1" then
    if negb (arrayRead 0 (codeSequence s) (buttonBeingCompared s) =? 1)
    then s<|incorrectCode := true|> else s
  else if Ascii.eqb receivedChar "0" then
    if negb (arrayRead 0 (codeSequence s) (buttonBeingCompared s) =? 0)
    then s<|incorrectCode := true|> else s
  else s<|incorrectCode := true|>.

(** Body of the loop of command '5'. *)
Definition storeKey (receivedChar : ascii) (s : State) : State :=
  if Ascii.eqb receivedChar "1" then
    s<|codeSequence := arrayWrite (codeSequence s) (buttonBeingCompared s) 1|>
  else if Ascii.eqb receivedChar "0" then
    s<|codeSequence := arrayWrite (codeSequence s) (buttonBeingCompared s) 0|>
  else s.

Definition codeCorrectText : string := CRLF +:+ "The code is correct" +:+ CRLF +:+ CRLF.
Definition codeIncorrectText : string := CRLF +:+ "The code is incorrect" +:+ CRLF +:+ CRLF.

Definition availableCommands (s : State) : State :=
  let s := uartWrite ("Available commands:" +:+ CRLF) 21 s in
  let s := uartWrite ("Press '1' to get the alarm state" +:+ CRLF) 34 s in
  let s := uartWrite ("Press '2' to get the gas detector state" +:+ CRLF) 41 s in
  let s := uartWrite ("Press '3' to get the over temperature detector state" +:+ CRLF) 54 s in
  let s := uartWrite ("Press '4' to enter the code sequence" +:+ CRLF) 38 s in
  let s := uartWrite ("Press '5' to enter a new code" +:+ CRLF) 31 s in
  let s := uartWrite ("Press 'P' or 'p' to get potentiometer reading" +:+ CRLF) 47 s in
  let s := uartWrite ("Press 'f' or 'F' to get lm35 reading in Fahrenheit" +:+ CRLF) 52 s in
  uartWrite ("Press 'c' or 'C' to get lm35 reading in Celsius" +:+ CRLF +:+ CRLF) 51 s.

Definition codeEntryPrompt (s : State) : State :=
  let s := uartWrite ("Please enter the code sequence." +:+ CRLF) 33 s in
  let s := uartWrite "First enter 'A', then 'B', then 'C', and " 41 s in
  let s := uartWrite ("finally 'D' button" +:+ CRLF) 20 s in
  let s := uartWrite "In each case type 1 for pressed or 0 for " 41 s in
  let s := uartWrite ("not pressed" +:+ CRLF) 13 s in
  let s := uartWrite "For example, for 'A' = pressed, " 32 s in
  let s := uartWrite "'B' = pressed, 'C' = not pressed, " 34 s in
  let s := uartWrite "'D' = not pressed, enter '1', then '1', " 40 s in
  uartWrite ("then '0', and finally '0'" +:+ CRLF +:+ CRLF) 29 s.

Definition newCodePrompt (s : State) : State :=
  let s := uartWrite ("Please enter new code sequence" +:+ CRLF) 32 s in
  let s := uartWrite "First enter 'A', then 'B', then 'C', and " 41 s in
  let s := uartWrite ("finally 'D' button" +:+ CRLF) 20 s in
  let s := uartWrite "In each case type 1 for pressed or 0 for not " 45 s in
  let s := uartWrite ("pressed" +:+ CRLF) 9 s in
  let s := uartWrite "For example, for 'A' = pressed, 'B' = pressed," 46 s in
  let s := uartWrite " 'C' = not pressed," 19 s in
  let s := uartWrite "'D' = not pressed, enter '1', then '1', " 40 s in
  uartWrite ("then '0', and finally '0'" +:+ CRLF +:+ CRLF) 29 s.

(** Command '4': prompt, four keys, verdict. *)
Definition codeEntry (rx : list ascii) (s : State) : option (list ascii * State) :=
  let s := codeEntryPrompt s in
  let s := s<|incorrectCode := false|> in
  let s := s<|buttonBeingCompared := 0|> in
  match keysLoop compareKey (Z.to_nat NUMBER_OF_KEYS) rx s with
  | None => None
  | Some (rx, s) =>
      if negb (incorrectCode s) then
        let s := uartWrite codeCorrectText 25 s in
        Some (rx, s<|alarmState := false|><|incorrectCodeLed := false|>
                   <|numberOfIncorrectCodes := 0|>)
      else
        let s := uartWrite codeIncorrectText 27 s in
        Some (rx, s<|incorrectCodeLed := true|>
                   <|numberOfIncorrectCodes := add32 (numberOfIncorrectCodes s) 1|>)
  end.

(** Command '5': prompt, four keys, acknowledgement. *)
Definition newCode (rx : list ascii) (s : State) : option (list ascii * State) :=
  let s := newCodePrompt s in
  let s := s<|buttonBeingCompared := 0|> in
  match keysLoop storeKey (Z.to_nat NUMBER_OF_KEYS) rx s with
  | None => None
  | Some (rx, s) =>
      Some (rx, uartWrite (CRLF +:+ "New code generated" +:+ CRLF +:+ CRLF) 24 s)
  end.

(** [rx] holds the bytes the serial line delivers to this call, the result
    holds those it did not read.  An empty [rx] is [!uartUsb.readable()]. *)
Definition uartTask (i : Inputs) (rx : list ascii) (s : State)
    : option (list ascii * State) :=
  let s := emit (Printf "UART Task initiated.") s in
  match rx with
  | [] => Some ([], s)
  | receivedChar :: rx =>
      if Ascii.eqb receivedChar "1" then
        Some (rx, if alarmState s
                  then uartWrite ("The alarm is activated" +:+ CRLF) 24 s
                  else uartWrite ("The alarm is not activated" +:+ CRLF) 28 s)
      else if Ascii.eqb receivedChar "2" then
        Some (rx, if negb (mq2Command i)
                  then uartWrite ("Gas is being detected" +:+ CRLF) 22 s
                  else uartWrite ("Gas is not being detected" +:+ CRLF) 27 s)
      else if Ascii.eqb receivedChar "3" then
        Some (rx, if overTempDetector s
                  then uartWrite ("Temperature is above the maximum level" +:+ CRLF) 40 s
                  else uartWrite ("Temperature is below the maximum level" +:+ CRLF) 40 s)
      else if Ascii.eqb receivedChar "4" then codeEntry rx s
      else if Ascii.eqb receivedChar "5" then newCode rx s
      else if Ascii.eqb receivedChar "p" || Ascii.eqb receivedChar "P" then
        let s := s<|potentiometerReading := potentiometer i|> in
        let str := "Potentiometer: "
                   +:+ sprintf_2f (d_of_f (potentiometerReading s)) +:+ CRLF in
        Some (rx, uartWrite str 100 s)
      else if Ascii.eqb receivedChar "c" || Ascii.eqb receivedChar "C" then
        let str := "Temperature: " +:+ sprintf_2f (d_of_f (lm35TempC s))
                   +:+ " " +:+ String "176" " C" +:+ CRLF in
        Some (rx, uartWrite str 100 s)
      else if Ascii.eqb receivedChar "f" || Ascii.eqb receivedChar "F" then
        let str := "Temperature: "
                   +:+ sprintf_2f (d_of_f (celsiusToFahrenheit (lm35TempC s)))
                   +:+ " " +:+ String "176" " F" +:+ CRLF in
        Some (rx, uartWrite str 100 s)
      else Some (rx, availableCommands s)
  end.

(** ** main *)

(** One pass of the body of [while (true)]; [delay] changes no state. *)
Definition mainLoopIteration (i : Inputs) (rx : list ascii) (s : State)
    : option State :=
  let s := alarmActivationUpdate i s in
  let s := alarmDeactivationUpdate i s in
  match uartTask i rx s with
  | None => None
  | Some (_, s) => Some s
  end.

(** The state in which [main] enters its loop. *)
Definition init : State := outputsInit (inputsInit powerOn).

(** The loop run over a script: the pins and the serial bytes of each pass. *)
Fixpoint mainLoop (script : list (Inputs * list ascii)) (s : State)
    : option State :=
  match script with
  | [] => Some s
  | (i, rx) :: script =>
      match mainLoopIteration i rx s with
      | None => None
      | Some s => mainLoop script s
      end
  end.

Inductive reachable : State -> Prop :=
| reachable_init : reachable init
| reachable_step i rx s s' :
    reachable s -> mainLoopIteration i rx s = Some s' -> reachable s'.

End Program.

(** ** An exact arithmetic, to run the program *)

(** [%.2f] on a rational: rounded to the nearest hundredth, halves upwards. *)
Definition digits (z : Z) : string := NilZero.string_of_int (Z.to_int z).

Definition Q_2f (q : Q) : string :=
  let h := Qfloor (Qplus (Qmult (Qabs q) (inject_Z 100)) (1 # 2)) in
  let frac := h mod 100 in
  (if Qle_bool 0 q then "" else "-") +:+ digits (h / 100) +:+ "."
  +:+ (if frac <? 10 then "0" else "") +:+ digits frac.

#[export] Instance QFloat : FloatArith := {|
  float := Q;
  double := Q;
  d_lit q := q;
  f_of_d q := q;
  d_of_f q := q;
  f_of_int z := inject_Z z;
  f_add a b := Qred (Qplus a b);
  f_div a b := Qred (Qdiv a b);
  f_gt a b := negb (Qle_bool a b);
  d_add a b := Qred (Qplus a b);
  d_mul a b := Qred (Qmult a b);
  d_div a b := Qred (Qdiv a b);
  sprintf_2f := Q_2f
|}.

(** Pins at rest: nothing pressed, no gas (the sensor reads high), 0 V. *)
Definition quiet : Inputs (FA := QFloat) := {|
  enterButton := false; alarmTestButton := false;
  aButton := false; bButton := false; cButton := false; dButton := false;
  mq2 := true; potentiometer := 0%Q; lm35 := 0%Q;
  aButtonLatch := false; bButtonLatch := false; cButtonLatch := false;
  dButtonLatch := false; enterButtonLatch := false;
  mq2Command := true
|}.

(** Gas, for the whole pass. *)
Definition gasPresent : Inputs (FA := QFloat) :=
  quiet<|mq2 := false|><|mq2Command := false|>.

(** The pins at rest except for the four keys and Enter, which keep their
    values during the pass. *)
Definition keys (a b c d enter : bool) : Inputs (FA := QFloat) :=
  quiet<|aButton := a|><|bButton := b|><|cButton := c|><|dButton := d|>
       <|enterButton := enter|>
       <|aButtonLatch := a|><|bButtonLatch := b|><|cButtonLatch := c|>
       <|dButtonLatch := d|><|enterButtonLatch := enter|>.

(** The four keys held during the pass; Enter is up when line 303 reads it
    and down when line 306 reads it. *)
Definition enterBetweenReads : Inputs (FA := QFloat) :=
  (keys true true true true false)<|enterButton := true|>.

Definition bytes (s : string) : list ascii := list_ascii_of_string s.

(** * Specification vocabulary *)

Section Vocabulary.
Context {FA : FloatArith}.

(** The sum and the mean of a buffer, in the arithmetic of the target: the
    slots are added in index order, starting from 0.0. *)
Definition sumOf (l : list float) : float := fold_left f_add l (f_of_d (d_lit 0)).

Definition arithmeticMean (l : list float) : float :=
  f_div (sumOf l) (f_of_int (Z.of_nat (length l))).


(** A byte of the serial code entry is a digit when it is '0' or '1'. *)
Definition isDigit (c : ascii) : bool := Ascii.eqb c "1" || Ascii.eqb c "0".

Definition digitOf (c : ascii) : Z := if Ascii.eqb c "1" then 1 else 0.

(** The four received bytes are digits and spell the secret code. *)
Definition spellsCode (bs : list ascii) (s : State) : Prop :=
  Forall (fun c => isDigit c = true) bs /\ map digitOf bs = codeSequence s.

(** The digit a byte of the serial code reset leaves in a position. *)
Definition storedDigit (c : ascii) (old : Z) : Z :=
  if Ascii.eqb c "1" then 1 else if Ascii.eqb c "0" then 0 else old.

(** One pass of [keysLoop]: echo, body, increment. *)
Definition keyStep (body : ascii -> State -> State) (s : State) (c : ascii) : State :=
  let s := body c (uartWrite "*" 1 s) in
  s<|buttonBeingCompared := add32 (buttonBeingCompared s) 1|>.

(** A received byte agrees with a digit of the code. *)
Definition keyAccepted (c : ascii) (d : Z) : bool :=
  Ascii.eqb c "1" && (d =? 1) || Ascii.eqb c "0" && (d =? 0).

(** The received bytes agree with the code from position [k] on. *)
Fixpoint keysAccepted (code : list Z) (k : Z) (bs : list ascii) : bool :=
  match bs with
  | [] => true
  | c :: bs => keyAccepted c (arrayRead 0 code k) && keysAccepted code (k + 1) bs
  end.

(** The code after the received bytes were stored from position [k] on. *)
Fixpoint keysStored (code : list Z) (k : Z) (bs : list ascii) : list Z :=
  match bs with
  | [] => code
  | c :: bs =>
      keysStored
        (if Ascii.eqb c "1" then arrayWrite code k 1
         else if Ascii.eqb c "0" then arrayWrite code k 0 else code)
        (k + 1) bs
  end.

(** The blinking half-period selected by the cause flags. *)
Definition blinkingTime (s : State) : option Z :=
  if gasDetectorState s && overTempDetectorState s
  then Some BLINKING_TIME_GAS_AND_OVER_TEMP_ALARM
  else if gasDetectorState s then Some BLINKING_TIME_GAS_ALARM
  else if overTempDetectorState s then Some BLINKING_TIME_OVER_TEMP_ALARM
  else None.

(** All four keys held with Enter released, as the test of line 303 reads
    them: what turns the incorrect-code LED off from the keypad. *)
Definition latchRelease (i : Inputs) : bool :=
  aButtonLatch i && bButtonLatch i && cButtonLatch i && dButtonLatch i
  && negb (enterButtonLatch i).

(** The condition under which the keypad path compares the keys: the test
    of line 306, which sees the LED as the test of line 303 left it. *)
Definition keypadGate (i : Inputs) (s : State) : bool :=
  enterButton i && negb (incorrectCodeLed s && negb (latchRelease i))
  && alarmState s.

(** [buttonsPressed] after the four assignments of the keypad path. *)
Definition keypadButtons (i : Inputs) (s : State) : list Z :=
  arrayWrite
    (arrayWrite
       (arrayWrite (arrayWrite (buttonsPressed s) 0 (Z.b2z (aButton i)))
                   1 (Z.b2z (bButton i)))
       2 (Z.b2z (cButton i)))
    3 (Z.b2z (dButton i)).

(** The texts sent before the keys of commands '4' and '5' are read. *)
Definition codeEntryPromptEvents : list Event := events (codeEntryPrompt powerOn).
Definition newCodePromptEvents : list Event := events (newCodePrompt powerOn).

Definition echo : Event := UartWrite "*" 1.

(** The state after command '4' read the four bytes [bs]. *)
Definition codeEntryResult (bs : list ascii) (s : State) : State :=
  let evs := events s ++ codeEntryPromptEvents ++ replicate 4 echo in
  if keysAccepted (codeSequence s) 0 bs then
    s<|events := evs ++ [UartWrite codeCorrectText 25]|>
     <|incorrectCode := false|><|buttonBeingCompared := 4|>
     <|alarmState := false|><|incorrectCodeLed := false|>
     <|numberOfIncorrectCodes := 0|>
  else
    s<|events := evs ++ [UartWrite codeIncorrectText 27]|>
     <|incorrectCode := true|><|buttonBeingCompared := 4|>
     <|incorrectCodeLed := true|>
     <|numberOfIncorrectCodes := add32 (numberOfIncorrectCodes s) 1|>.

(** The state after command '5' read the four bytes [bs]. *)
Definition newCodeResult (bs : list ascii) (s : State) : State :=
  s<|events := events s ++ newCodePromptEvents ++ replicate 4 echo
               ++ [UartWrite (CRLF +:+ "New code generated" +:+ CRLF +:+ CRLF) 24]|>
   <|buttonBeingCompared := 4|>
   <|codeSequence := keysStored (codeSequence s) 0 bs|>.

(** The two reports of a successful code verification. *)
Definition reportsMatch (e : Event) : Prop :=
  e = AreEqual true \/ e = UartWrite codeCorrectText 25.

(** The call of [areEqual] is the code evaluation of the keypad path. *)
Definition isKeypadEvaluation (e : Event) : Prop := exists r, e = AreEqual r.

(** The verdict of command '4' is the code evaluation of the serial path. *)
Definition isSerialEvaluation (e : Event) : Prop :=
  e = UartWrite codeCorrectText 25 \/ e = UartWrite codeIncorrectText 27.

(** A call of [uartUsb.write] whose length is the length of its text. *)
Definition writesWholeText (e : Event) : Prop :=
  match e with
  | UartWrite buf len => len = String.length buf
  | _ => True
  end.

(** An event that is no code evaluation, on either path. *)
Definition isQuiet (e : Event) : Prop :=
  ~ isKeypadEvaluation e /\ ~ isSerialEvaluation e.

(** A text sent by a command other than '4' and '5'. *)
Definition isStatusWrite (e : Event) : Prop :=
  (exists buf len, e = UartWrite buf len) /\ ~ isSerialEvaluation e.

Definition availableCommandsEvents : list Event := events (availableCommands powerOn).

(** The code lock, its two LEDs and the history are the same in both states. *)
Definition sameLock (s s' : State) : Prop :=
  numberOfIncorrectCodes s' = numberOfIncorrectCodes s /\
  codeSequence s' = codeSequence s /\
  buttonsPressed s' = buttonsPressed s /\
  incorrectCodeLed s' = incorrectCodeLed s /\
  systemBlockedLed s' = systemBlockedLed s /\
  events s' = events s.

(** What the indices and the timer of a running program satisfy. *)
Record wf (s : State) : Prop := {
  wf_readings : length (lm35ReadingsArray s) = Z.to_nat NUMBER_OF_AVG_SAMPLES;
  wf_index : 0 <= lm35SampleIndex s < NUMBER_OF_AVG_SAMPLES;
  wf_code : length (codeSequence s) = Z.to_nat NUMBER_OF_KEYS;
  wf_digits : Forall (fun d => d = 0 \/ d = 1) (codeSequence s);
  wf_buttons : length (buttonsPressed s) = Z.to_nat NUMBER_OF_KEYS;
  wf_time : 0 <= accumulatedTimeAlarm s < BLINKING_TIME_GAS_ALARM;
  wf_count : - 2 ^ 31 <= numberOfIncorrectCodes s < 2 ^ 31;
  wf_cause : alarmState s = true ->
             gasDetectorState s || overTempDetectorState s = true
}.

End Vocabulary.

(** * Concrete scripts *)

(** What [observe] shows of the state after the program ran a script from
    the state in which [main] enters its loop; [None] when a read of the
    serial line never returns. *)
Definition after {A} (script : list (Inputs * list ascii)) (observe : State -> A)
    : option A :=
  option_map observe (mainLoop script init).

(** Five passes of the loop, each receiving command '4' with the wrong code
    0000; gas is present on the first. *)
Definition fiveWrongEntries : list (Inputs * list ascii) :=
  (gasPresent, bytes "40000") :: replicate 4 (quiet, bytes "40000").

(** Gas sets the alarm off, then Enter is pressed with no key held (the
    wrong code 0000); then everything is released for one pass; then the
    right code 1100 is entered on the keypad. *)
Definition wrongKeypadCode : list (Inputs * list ascii) :=
  [(gasPresent, []); (keys false false false false true, [])].

Definition thenReleased : list (Inputs * list ascii) :=
  wrongKeypadCode ++ [(keys false false false false false, [])].

Definition thenRightCode : list (Inputs * list ascii) :=
  thenReleased ++ [(keys true true false false true, [])].

(** Gas sets the alarm off; the right code 1100 is entered on the keypad
    once the gas is gone; one pass at rest; gas again. *)
Definition alarmRaised : list (Inputs * list ascii) := [(gasPresent, [])].

Definition thenTurnedOff : list (Inputs * list ascii) :=
  alarmRaised ++ [(keys true true false false true, [])].

Definition thenAtRest : list (Inputs * list ascii) :=
  thenTurnedOff ++ [(quiet, [])].

Definition thenRaisedAgain : list (Inputs * list ascii) :=
  thenAtRest ++ [(gasPresent, [])].

(** The alarm set off by gas, straight after [main] entered its loop. *)
Definition gasAlarm : State := alarmActivationUpdate gasPresent init.

(** The state after one more pass of the loop with the pins [i] and no byte
    on the serial line. *)
Definition pass (i : Inputs) (s : State) : State :=
  emit (Printf "UART Task initiated.")
       (alarmDeactivationUpdate i (alarmActivationUpdate i s)).

(** The initial state with the counter at the lockout threshold. *)
Definition atThreshold : State := init<|numberOfIncorrectCodes := 5|>.

(** The initial state with the incorrect-code LED on. *)
Definition ledOn : State := init<|incorrectCodeLed := true|>.

(** The gas alarm after one wrong keypad code: counter 1, LED on. *)
Definition latched : State :=
  gasAlarm<|incorrectCodeLed := true|><|numberOfIncorrectCodes := 1|>.

(** The gas alarm with three wrong codes counted and the LED off again. *)
Definition threeWrong : State := gasAlarm<|numberOfIncorrectCodes := 3|>.

(** The gas alarm one pass before its LED toggles: 990 ms accumulated. *)
Definition blinkDue : State := gasAlarm<|accumulatedTimeAlarm := 990|>.

(** * Properties *)

Lemma wrap32_small z : - 2 ^ 31 <= z < 2 ^ 31 -> wrap32 z = z.
Proof.
  intros H. unfold wrap32.
  rewrite Z.mod_small by lia. lia.
Qed.

Lemma add32_small a b : - 2 ^ 31 <= a + b < 2 ^ 31 -> add32 a b = a + b.
Proof. apply wrap32_small. Qed.

#[local] Arguments add32 : simpl never.
#[local] Arguments wrap32 : simpl never.
#[local] Arguments sumReadings : simpl never.

(** Simplify the projections of updated records. *)
Ltac rsimpl :=
  cbn in *;
  repeat match goal with
         | |- context [RecordSettersUsingExistingGetters.const ?v ?x] =>
             change (RecordSettersUsingExistingGetters.const v x) with v
         | H : context [RecordSettersUsingExistingGetters.const ?v ?x] |- _ =>
             change (RecordSettersUsingExistingGetters.const v x) with v in H
         end;
  cbn in *.

(** Normalise the updates of a record given by its constructor. *)
Ltac rnorm :=
  cbv [RecordSettersUsingExistingGetters.set
       RecordSettersUsingExistingGetters.const
       alarmState incorrectCode overTempDetector numberOfIncorrectCodes
       buttonBeingCompared codeSequence buttonsPressed accumulatedTimeAlarm
       gasDetectorState overTempDetectorState potentiometerReading
       lm35ReadingsAverage lm35ReadingsSum lm35ReadingsArray lm35TempC
       lm35SampleIndex alarmLed incorrectCodeLed systemBlockedLed
       sirenPinDirection sirenPin events].

Ltac unfold_defines :=
  unfold NUMBER_OF_KEYS, BLINKING_TIME_GAS_ALARM, BLINKING_TIME_OVER_TEMP_ALARM,
    BLINKING_TIME_GAS_AND_OVER_TEMP_ALARM, NUMBER_OF_AVG_SAMPLES,
    OVER_TEMP_LEVEL, TIME_INCREMENT_MS in *.

(** Evaluate the array indices that are literals. *)
Ltac eval_indices :=
  repeat match goal with
         | |- context [Z.to_nat ?z] =>
             let n := eval vm_compute in (Z.to_nat z) in
             lazymatch n with
             | context [Z.to_nat] => fail
             | context [match _ with _ => _ end] => fail
             | _ => progress change (Z.to_nat z) with n
             end
         end.

Ltac split_ifs :=
  repeat match goal with
         | |- context [if ?b then _ else _] => destruct b eqn:?
         end.

Section Facts.
Context {FA : FloatArith}.
Implicit Types (s : State) (i : Inputs) (rx bs rest : list ascii).
Implicit Types (script : list (Inputs * list ascii)).

(** ** The temperature filter *)

Lemma sumReadings_from (n k : nat) s :
  (k + n <= length (lm35ReadingsArray s))%nat ->
  fold_left
    (fun st (j : nat) =>
       st<|lm35ReadingsSum :=
             f_add (lm35ReadingsSum st)
                   (arrayRead (f_of_int 0) (lm35ReadingsArray st) (Z.of_nat j))|>)
    (seq k n) s
  = s<|lm35ReadingsSum :=
         fold_left f_add (take n (drop k (lm35ReadingsArray s))) (lm35ReadingsSum s)|>.
Proof.
  revert k s. induction n as [|n IH]; intros k s Hlen.
  - destruct s; reflexivity.
  - destruct (lookup_lt_is_Some_2 (lm35ReadingsArray s) k) as [x Hx]; [lia|].
    cbn [seq fold_left]. rewrite IH by (cbn; lia).
    rewrite (drop_S _ _ _ Hx). cbn.
    unfold arrayRead. rewrite Nat2Z.id, nth_lookup, Hx. reflexivity.
Qed.

Lemma sumReadings_eq s :
  length (lm35ReadingsArray s) = Z.to_nat NUMBER_OF_AVG_SAMPLES ->
  sumReadings s
  = s<|lm35ReadingsSum := fold_left f_add (lm35ReadingsArray s) (lm35ReadingsSum s)|>.
Proof.
  intros Hlen. unfold sumReadings.
  rewrite sumReadings_from by lia.
  rewrite drop_0, <- Hlen, firstn_all. reflexivity.
Qed.

(** [sumReadings] writes [lm35ReadingsSum] and nothing else, whatever the
    length of the buffer. *)
Lemma sumReadings_frame s :
  sumReadings s = s<|lm35ReadingsSum := lm35ReadingsSum (sumReadings s)|>.
Proof.
  unfold sumReadings. generalize (seq 0 (Z.to_nat NUMBER_OF_AVG_SAMPLES)).
  intros l. revert s. induction l as [|k l IH]; intros s.
  - destruct s; reflexivity.
  - cbn [fold_left]. rewrite IH at 1. cbn. reflexivity.
Qed.

Lemma sampleTemperature_eq i s :
  length (lm35ReadingsArray s) = Z.to_nat NUMBER_OF_AVG_SAMPLES ->
  0 <= lm35SampleIndex s < NUMBER_OF_AVG_SAMPLES ->
  sampleTemperature i s
  = let readings := arrayWrite (lm35ReadingsArray s) (lm35SampleIndex s) (lm35 i) in
    s<|lm35ReadingsArray := readings|>
     <|lm35SampleIndex := (lm35SampleIndex s + 1) mod NUMBER_OF_AVG_SAMPLES|>
     <|lm35ReadingsSum := sumOf readings|>
     <|lm35ReadingsAverage := arithmeticMean readings|>
     <|lm35TempC := analogReadingScaledWithTheLM35Formula (arithmeticMean readings)|>.
Proof.
  intros Hlen Hidx. cbv zeta. unfold arithmeticMean, arrayWrite.
  assert (Hmod : (lm35SampleIndex s + 1) mod NUMBER_OF_AVG_SAMPLES
                 = if NUMBER_OF_AVG_SAMPLES <=? lm35SampleIndex s + 1
                   then 0 else lm35SampleIndex s + 1).
  { unfold NUMBER_OF_AVG_SAMPLES in *.
    destruct (Z.leb_spec 100 (lm35SampleIndex s + 1)).
    - replace (lm35SampleIndex s + 1) with 100 by lia. reflexivity.
    - apply Z.mod_small. lia. }
  rewrite !length_insert, Hlen, Z2Nat.id, Hmod by (unfold NUMBER_OF_AVG_SAMPLES; lia).
  unfold sampleTemperature, arrayWrite.
  destruct s; cbn in *.
  rewrite add32_small by (unfold NUMBER_OF_AVG_SAMPLES in *; lia).
  destruct (NUMBER_OF_AVG_SAMPLES <=? _); cbn;
    (rewrite sumReadings_eq
       by (cbn; etransitivity; [apply length_insert | exact Hlen]));
    reflexivity.
Qed.

Lemma detectCauses_eq i s :
  detectCauses i s
  = let hot := f_gt (lm35TempC s) (f_of_int OVER_TEMP_LEVEL) in
    s<|overTempDetector := hot|>
     <|gasDetectorState := gasDetectorState s || negb (mq2 i) || alarmTestButton i|>
     <|overTempDetectorState := overTempDetectorState s || hot || alarmTestButton i|>
     <|alarmState := alarmState s || negb (mq2 i) || hot || alarmTestButton i|>.
Proof.
  unfold detectCauses. destruct s; cbn.
  destruct (f_gt _ _), (mq2 i), (alarmTestButton i); cbn;
    rewrite ?orb_true_r, ?orb_false_r; reflexivity.
Qed.

Lemma driveAlarm_off s :
  alarmState s = false ->
  driveAlarm s
  = s<|alarmLed := false|><|gasDetectorState := false|>
     <|overTempDetectorState := false|><|sirenPinDirection := PinInput|>.
Proof. intros H. unfold driveAlarm. rewrite H. reflexivity. Qed.

Lemma driveAlarm_on s :
  alarmState s = true ->
  driveAlarm s
  = let s1 := s<|accumulatedTimeAlarm :=
                   add32 (accumulatedTimeAlarm s) TIME_INCREMENT_MS|>
               <|sirenPinDirection := PinOutput|><|sirenPin := false|> in
    match blinkingTime s with
    | Some period => blink period s1
    | None => s1
    end.
Proof.
  intros H. unfold driveAlarm, blinkingTime. rewrite H.
  destruct s; cbn. split_ifs; reflexivity.
Qed.

Lemma wf_activation i s : wf s -> wf (alarmActivationUpdate i s).
Proof.
  intros [Hr Hi Hc Hd Hb Ht Hn Ha]. unfold alarmActivationUpdate.
  rewrite sampleTemperature_eq by assumption. rewrite detectCauses_eq.
  cbv zeta.
  pose proof (Z.mod_pos_bound (lm35SampleIndex s + 1) NUMBER_OF_AVG_SAMPLES eq_refl) as Hm.
  assert (length (arrayWrite (lm35ReadingsArray s) (lm35SampleIndex s) (lm35 i))
          = Z.to_nat NUMBER_OF_AVG_SAMPLES)
    by (unfold arrayWrite; rewrite length_insert; assumption).
  unfold BLINKING_TIME_GAS_ALARM in *.
  match goal with
  | |- wf (driveAlarm ?st) => destruct (alarmState st) eqn:Hon
  end.
  - rewrite driveAlarm_on by exact Hon. unfold blinkingTime, blink.
    rsimpl. rewrite add32_small by (unfold TIME_INCREMENT_MS; clear - Ht; lia).
    unfold TIME_INCREMENT_MS, BLINKING_TIME_GAS_AND_OVER_TEMP_ALARM,
      BLINKING_TIME_GAS_ALARM, BLINKING_TIME_OVER_TEMP_ALARM.
    destruct (alarmState s) eqn:Ea; [specialize (Ha eq_refl)|];
    destruct (gasDetectorState s), (overTempDetectorState s),
      (f_gt _ _), (mq2 i), (alarmTestButton i); try discriminate; rsimpl;
      split_ifs; constructor; rsimpl; auto; unfold_defines; lia.
  - rewrite driveAlarm_off by exact Hon. rsimpl.
    constructor; rsimpl; auto. congruence.
Qed.

(** ** The keypad path *)



Lemma deactivation_cases i s :
  let s' := alarmDeactivationUpdate i s in
  (5 <= numberOfIncorrectCodes s /\ s' = s<|systemBlockedLed := true|>)
  \/ (numberOfIncorrectCodes s < 5 /\ keypadGate i s = false /\
      s' = s<|incorrectCodeLed := incorrectCodeLed s && negb (latchRelease i)|>)
  \/ (numberOfIncorrectCodes s < 5 /\ keypadGate i s = true /\
      let s1 := s<|incorrectCodeLed := false|>
                 <|buttonsPressed := keypadButtons i s|> in
      s' = if areEqual s1
           then s1<|events := events s ++ [AreEqual true]|>
                  <|alarmState := false|><|numberOfIncorrectCodes := 0|>
           else s1<|events := events s ++ [AreEqual false]|>
                  <|incorrectCodeLed := true|>
                  <|numberOfIncorrectCodes := add32 (numberOfIncorrectCodes s) 1|>).
Proof.
  cbv zeta. unfold alarmDeactivationUpdate, keypadGate, keypadButtons, emit.
  fold (latchRelease i).
  destruct (Z.ltb_spec (numberOfIncorrectCodes s) 5) as [Hn|Hn]; [|left; auto].
  right. destruct s; rsimpl.
  destruct (latchRelease i), (enterButton i), incorrectCodeLed0, alarmState0;
    rsimpl;
    first [ left; split; [assumption | split; reflexivity]
          | right; split; [assumption | split; [reflexivity|]];
            match goal with |- context [areEqual ?st] => set (r := areEqual st) end;
            repeat match goal with
                   | |- context [areEqual ?st] => change (areEqual st) with r
                   end;
            destruct r; reflexivity ].
Qed.

(** ** The serial path *)

Lemma keysLoop_app body bs rest s :
  keysLoop body (length bs) (bs ++ rest) s
  = Some (rest, fold_left (keyStep body) bs s).
Proof.
  revert s. induction bs as [|c bs IH]; intros s; [reflexivity|].
  cbn [length app keysLoop fold_left]. apply IH.
Qed.

Lemma keysLoop_short body n rx s :
  (length rx < n)%nat -> keysLoop body n rx s = None.
Proof.
  revert rx s. induction n as [|n IH]; intros [|c rx] s H; cbn in H; try lia.
  - reflexivity.
  - cbn [keysLoop]. apply IH. lia.
Qed.

Lemma keysLoop_Some body n rx s rest s' :
  keysLoop body n rx s = Some (rest, s') ->
  exists bs, rx = bs ++ rest /\ length bs = n /\ s' = fold_left (keyStep body) bs s.
Proof.
  revert rx s. induction n as [|n IH]; intros rx s H.
  - inversion H; subst. exists []. auto.
  - destruct rx as [|c rx]; [discriminate|]. cbn [keysLoop] in H.
    destruct (IH _ _ H) as (bs & -> & Hl & ->).
    exists (c :: bs). cbn. auto.
Qed.

Lemma keyStep_compare c s :
  - 2 ^ 31 <= buttonBeingCompared s + 1 < 2 ^ 31 ->
  keyStep compareKey s c
  = s<|events := events s ++ [echo]|>
     <|incorrectCode :=
         incorrectCode s
         || negb (keyAccepted c (arrayRead 0 (codeSequence s) (buttonBeingCompared s)))|>
     <|buttonBeingCompared := buttonBeingCompared s + 1|>.
Proof.
  intros H. unfold keyStep, compareKey, keyAccepted, uartWrite, emit, echo.
  destruct s; rsimpl.
  destruct (Ascii.eqb_spec c "1") as [->|_]; [|destruct (Ascii.eqb c "0")];
    destruct incorrectCode0; rsimpl;
    repeat match goal with
           | |- context [?a =? ?b] => destruct (a =? b)
           end; rsimpl; rewrite add32_small by exact H; reflexivity.
Qed.

Lemma keyStep_store c s :
  - 2 ^ 31 <= buttonBeingCompared s + 1 < 2 ^ 31 ->
  keyStep storeKey s c
  = s<|events := events s ++ [echo]|>
     <|codeSequence :=
         if Ascii.eqb c "1" then arrayWrite (codeSequence s) (buttonBeingCompared s) 1
         else if Ascii.eqb c "0"
              then arrayWrite (codeSequence s) (buttonBeingCompared s) 0
              else codeSequence s|>
     <|buttonBeingCompared := buttonBeingCompared s + 1|>.
Proof.
  intros H. unfold keyStep, storeKey, uartWrite, emit, echo.
  destruct s; rsimpl.
  destruct (Ascii.eqb c "1"), (Ascii.eqb c "0"); rsimpl;
    rewrite add32_small by exact H; reflexivity.
Qed.

Lemma compareKeys_eq bs s :
  0 <= buttonBeingCompared s ->
  buttonBeingCompared s + Z.of_nat (length bs) < 2 ^ 31 ->
  fold_left (keyStep compareKey) bs s
  = s<|events := events s ++ replicate (length bs) echo|>
     <|incorrectCode :=
         incorrectCode s
         || negb (keysAccepted (codeSequence s) (buttonBeingCompared s) bs)|>
     <|buttonBeingCompared := buttonBeingCompared s + Z.of_nat (length bs)|>.
Proof.
  revert s. induction bs as [|c bs IH]; intros s H0 H1.
  - destruct s; rsimpl; rnorm. rewrite app_nil_r, orb_false_r, Z.add_0_r. reflexivity.
  - cbn [fold_left length] in *.
    rewrite keyStep_compare by lia.
    rewrite IH by (rsimpl; lia).
    destruct s; rsimpl; rnorm. f_equal.
    + destruct incorrectCode0, (keyAccepted c _), (keysAccepted _ _ _); reflexivity.
    + lia.
    + rewrite <- app_assoc. reflexivity.
Qed.

Lemma storeKeys_eq bs s :
  0 <= buttonBeingCompared s ->
  buttonBeingCompared s + Z.of_nat (length bs) < 2 ^ 31 ->
  fold_left (keyStep storeKey) bs s
  = s<|events := events s ++ replicate (length bs) echo|>
     <|codeSequence := keysStored (codeSequence s) (buttonBeingCompared s) bs|>
     <|buttonBeingCompared := buttonBeingCompared s + Z.of_nat (length bs)|>.
Proof.
  revert s. induction bs as [|c bs IH]; intros s H0 H1.
  - destruct s; rsimpl; rnorm. rewrite app_nil_r, Z.add_0_r. reflexivity.
  - cbn [fold_left length] in *.
    rewrite keyStep_store by lia.
    rewrite IH by (rsimpl; lia).
    destruct s; rsimpl; rnorm. f_equal.
    + lia.
    + rewrite <- app_assoc. reflexivity.
Qed.

Lemma codeEntryPrompt_eq s :
  codeEntryPrompt s = s<|events := events s ++ codeEntryPromptEvents|>.
Proof.
  unfold codeEntryPrompt, codeEntryPromptEvents, uartWrite, emit.
  destruct s; rsimpl; rnorm. rewrite <- !app_assoc. reflexivity.
Qed.

Lemma newCodePrompt_eq s :
  newCodePrompt s = s<|events := events s ++ newCodePromptEvents|>.
Proof.
  unfold newCodePrompt, newCodePromptEvents, uartWrite, emit.
  destruct s; rsimpl; rnorm. rewrite <- !app_assoc. reflexivity.
Qed.

Lemma codeEntry_eq bs rest s :
  length bs = Z.to_nat NUMBER_OF_KEYS ->
  codeEntry (bs ++ rest) s = Some (rest, codeEntryResult bs s).
Proof.
  intros Hl. unfold codeEntry, codeEntryResult. rewrite <- Hl, keysLoop_app.
  rewrite codeEntryPrompt_eq, compareKeys_eq by (rsimpl; rewrite ?Hl; unfold NUMBER_OF_KEYS; lia).
  rewrite Hl. unfold uartWrite, emit.
  destruct s; rsimpl. destruct (keysAccepted _ _ _); rsimpl; rnorm;
    rewrite <- !app_assoc; reflexivity.
Qed.

Lemma newCode_eq bs rest s :
  length bs = Z.to_nat NUMBER_OF_KEYS ->
  newCode (bs ++ rest) s = Some (rest, newCodeResult bs s).
Proof.
  intros Hl. unfold newCode, newCodeResult. rewrite <- Hl, keysLoop_app.
  rewrite newCodePrompt_eq, storeKeys_eq by (rsimpl; rewrite ?Hl; unfold NUMBER_OF_KEYS; lia).
  rewrite Hl. unfold uartWrite, emit.
  destruct s; rsimpl; rnorm. rewrite <- !app_assoc. reflexivity.
Qed.

Lemma availableCommands_eq s :
  availableCommands s = s<|events := events s ++ availableCommandsEvents|>.
Proof.
  unfold availableCommands, availableCommandsEvents, uartWrite, emit.
  destruct s; rsimpl; rnorm. rewrite <- !app_assoc. reflexivity.
Qed.

Lemma isStatusWrite_intro buf len :
  UartWrite buf len <> UartWrite codeCorrectText 25 ->
  UartWrite buf len <> UartWrite codeIncorrectText 27 ->
  isStatusWrite (UartWrite buf len).
Proof.
  intros H1 H2. split; [eauto|]. intros [H|H]; contradiction.
Qed.

Ltac status_write :=
  apply isStatusWrite_intro; vm_compute; intros H; discriminate H.

Lemma availableCommandsEvents_status : Forall isStatusWrite availableCommandsEvents.
Proof.
  unfold availableCommandsEvents, availableCommands, uartWrite, emit. cbn.
  repeat (constructor; [status_write|]). constructor.
Qed.

Lemma codeEntry_Some rx s rest s' :
  codeEntry rx s = Some (rest, s') ->
  exists bs, rx = bs ++ rest /\ length bs = Z.to_nat NUMBER_OF_KEYS /\
             s' = codeEntryResult bs s.
Proof.
  intros H. pose proof H as H'. unfold codeEntry in H'.
  destruct (keysLoop _ _ _ _) as [[rx' s1]|] eqn:E; [|discriminate].
  destruct (keysLoop_Some _ _ _ _ _ _ E) as (bs & -> & Hl & _).
  assert (rx' = rest) as -> by (destruct (negb _); congruence).
  rewrite codeEntry_eq in H by exact Hl. injection H as <-. eauto.
Qed.

Lemma newCode_Some rx s rest s' :
  newCode rx s = Some (rest, s') ->
  exists bs, rx = bs ++ rest /\ length bs = Z.to_nat NUMBER_OF_KEYS /\
             s' = newCodeResult bs s.
Proof.
  intros H. pose proof H as H'. unfold newCode in H'.
  destruct (keysLoop _ _ _ _) as [[rx' s1]|] eqn:E; [|discriminate].
  destruct (keysLoop_Some _ _ _ _ _ _ E) as (bs & -> & Hl & _).
  assert (rx' = rest) as -> by congruence.
  rewrite newCode_eq in H by exact Hl. injection H as <-. eauto.
Qed.

(** What one call of [uartTask] can do. *)
Lemma uartTask_cases i rx s rest s' :
  uartTask i rx s = Some (rest, s') ->
  let s0 := emit (Printf "UART Task initiated.") s in
  (exists bs, rx = "4"%char :: bs ++ rest /\ length bs = Z.to_nat NUMBER_OF_KEYS /\
              s' = codeEntryResult bs s0)
  \/ (exists bs, rx = "5"%char :: bs ++ rest /\ length bs = Z.to_nat NUMBER_OF_KEYS /\
                 s' = newCodeResult bs s0)
  \/ (exists pot evs,
        s' = s0<|potentiometerReading := pot|><|events := events s0 ++ evs|> /\
        Forall isStatusWrite evs).
Proof.
  cbv zeta. unfold uartTask.
  set (s0 := emit (Printf "UART Task initiated.") s).
  assert (Hstatus : forall buf len st,
             isStatusWrite (UartWrite buf len) ->
             st = s0 \/ st = s0<|potentiometerReading := potentiometer i|> ->
             exists pot evs,
               uartWrite buf len st
               = s0<|potentiometerReading := pot|><|events := events s0 ++ evs|> /\
               Forall isStatusWrite evs).
  { intros buf len st Hw [->| ->].
    - exists (potentiometerReading s0), [UartWrite buf len]. split.
      + unfold uartWrite, emit. destruct s0; reflexivity.
      + constructor; [exact Hw | constructor].
    - exists (potentiometer i), [UartWrite buf len]. split.
      + unfold uartWrite, emit. destruct s0; reflexivity.
      + constructor; [exact Hw | constructor]. }
  destruct rx as [|c rx].
  { intros [= <- <-]. right; right.
    exists (potentiometerReading s0), []. split; [|constructor].
    destruct s0; rnorm. rewrite app_nil_r. reflexivity. }
  destruct (Ascii.eqb_spec c "1") as [->|_].
  { intros [= <- <-]. right; right.
    split_ifs; apply Hstatus; auto; status_write. }
  destruct (Ascii.eqb_spec c "2") as [->|_].
  { intros [= <- <-]. right; right.
    split_ifs; apply Hstatus; auto; status_write. }
  destruct (Ascii.eqb_spec c "3") as [->|_].
  { intros [= <- <-]. right; right.
    split_ifs; apply Hstatus; auto; status_write. }
  destruct (Ascii.eqb_spec c "4") as [->|_].
  { intros H. left.
    destruct (codeEntry_Some _ _ _ _ H) as (bs & -> & Hl & ->). eauto. }
  destruct (Ascii.eqb_spec c "5") as [->|_].
  { intros H. right; left.
    destruct (newCode_Some _ _ _ _ H) as (bs & -> & Hl & ->). eauto. }
  destruct (Ascii.eqb c "p" || Ascii.eqb c "P").
  { intros [= <- <-]. right; right. apply Hstatus; auto.
    apply isStatusWrite_intro; intros [=]. }
  destruct (Ascii.eqb c "c" || Ascii.eqb c "C").
  { intros [= <- <-]. right; right. apply Hstatus; auto.
    apply isStatusWrite_intro; intros [=]. }
  destruct (Ascii.eqb c "f" || Ascii.eqb c "F").
  { intros [= <- <-]. right; right. apply Hstatus; auto.
    apply isStatusWrite_intro; intros [=]. }
  intros [= <- <-]. right; right. rewrite availableCommands_eq.
  exists (potentiometerReading s0), availableCommandsEvents.
  split; [destruct s0; reflexivity | apply availableCommandsEvents_status].
Qed.

(** ** The invariant *)

Lemma wrap32_range z : - 2 ^ 31 <= wrap32 z < 2 ^ 31.
Proof.
  unfold wrap32. pose proof (Z.mod_pos_bound (z + 2 ^ 31) (2 ^ 32) eq_refl). lia.
Qed.

Lemma keysStored_length bs code k :
  length (keysStored code k bs) = length code.
Proof.
  revert code k. induction bs as [|c bs IH]; intros code k; [reflexivity|].
  cbn [keysStored]. rewrite IH. unfold arrayWrite.
  destruct (Ascii.eqb c "1"), (Ascii.eqb c "0"); rewrite ?length_insert; reflexivity.
Qed.

Lemma keysStored_digits bs code k :
  Forall (fun d => d = 0 \/ d = 1) code ->
  Forall (fun d => d = 0 \/ d = 1) (keysStored code k bs).
Proof.
  revert code k. induction bs as [|c bs IH]; intros code k H; [exact H|].
  cbn [keysStored]. apply IH. unfold arrayWrite.
  destruct (Ascii.eqb c "1"), (Ascii.eqb c "0"); auto using Forall_insert.
Qed.

Lemma wf_init : wf init.
Proof.
  constructor; cbn; try (unfold_defines; lia); try reflexivity; try discriminate.
  repeat (constructor; [auto|]). constructor.
Qed.

Lemma wf_deactivation i s : wf s -> wf (alarmDeactivationUpdate i s).
Proof.
  intros [Hr Hi Hc Hd Hb Ht Hn Ha].
  destruct (deactivation_cases i s) as [[_ ->]|[(_ & _ & ->)|(_ & _ & ->)]].
  - constructor; assumption.
  - constructor; assumption.
  - assert (length (keypadButtons i s) = Z.to_nat NUMBER_OF_KEYS)
      by (unfold keypadButtons, arrayWrite; rewrite !length_insert; exact Hb).
    destruct (areEqual _); constructor; rsimpl; auto;
      first [ discriminate | apply wrap32_range | lia ].
Qed.

Lemma wf_uartTask i rx s rest s' :
  uartTask i rx s = Some (rest, s') -> wf s -> wf s'.
Proof.
  intros H [Hr Hi Hc Hd Hb Ht Hn Ha].
  destruct (uartTask_cases _ _ _ _ _ H)
    as [(bs & _ & _ & ->)|[(bs & _ & _ & ->)|(pot & evs & -> & _)]].
  - unfold codeEntryResult. rsimpl.
    destruct (keysAccepted _ _ _); constructor; rsimpl; auto;
      first [ discriminate | apply wrap32_range | lia ].
  - unfold newCodeResult. constructor; rsimpl; auto.
    + rewrite keysStored_length. exact Hc.
    + apply keysStored_digits. exact Hd.
  - constructor; rsimpl; auto.
Qed.

Lemma wf_iteration i rx s s' :
  mainLoopIteration i rx s = Some s' -> wf s -> wf s'.
Proof.
  unfold mainLoopIteration. intros H Hwf.
  destruct (uartTask _ _ _) as [[rest s1]|] eqn:E; [|discriminate].
  injection H as <-.
  eapply wf_uartTask; [exact E|]. apply wf_deactivation, wf_activation, Hwf.
Qed.

Lemma reachable_wf s : reachable s -> wf s.
Proof.
  induction 1 as [|i rx s s' _ IH Hstep]; [apply wf_init|].
  eapply wf_iteration; eauto.
Qed.

(** ** What [alarmActivationUpdate] leaves alone *)

Lemma sampleTemperature_frame i s :
  let s' := sampleTemperature i s in
  sameLock s s' /\ alarmState s' = alarmState s /\
  gasDetectorState s' = gasDetectorState s /\
  overTempDetectorState s' = overTempDetectorState s /\
  accumulatedTimeAlarm s' = accumulatedTimeAlarm s /\
  alarmLed s' = alarmLed s.
Proof.
  cbv zeta. unfold sampleTemperature, sameLock. rewrite sumReadings_frame.
  destruct s; rsimpl. split_ifs; rsimpl; auto 10.
Qed.

Lemma driveAlarm_frame s :
  sameLock s (driveAlarm s) /\ alarmState (driveAlarm s) = alarmState s /\
  lm35ReadingsArray (driveAlarm s) = lm35ReadingsArray s /\
  lm35SampleIndex (driveAlarm s) = lm35SampleIndex s /\
  lm35ReadingsAverage (driveAlarm s) = lm35ReadingsAverage s /\
  lm35TempC (driveAlarm s) = lm35TempC s.
Proof.
  unfold driveAlarm, blink, sameLock.
  destruct s; rsimpl. split_ifs; rsimpl; auto 12.
Qed.

Lemma detectCauses_frame i s :
  sameLock s (detectCauses i s) /\
  accumulatedTimeAlarm (detectCauses i s) = accumulatedTimeAlarm s /\
  alarmLed (detectCauses i s) = alarmLed s /\
  (alarmState s = true -> alarmState (detectCauses i s) = true).
Proof.
  unfold detectCauses, sameLock.
  destruct s; rsimpl. split_ifs; rsimpl; auto 12.
Qed.

Lemma sameLock_trans s1 s2 s3 : sameLock s1 s2 -> sameLock s2 s3 -> sameLock s1 s3.
Proof. unfold sameLock. intuition congruence. Qed.

Lemma activation_sameLock i s : sameLock s (alarmActivationUpdate i s).
Proof.
  unfold alarmActivationUpdate.
  eapply sameLock_trans; [apply sampleTemperature_frame|].
  eapply sameLock_trans; [apply detectCauses_frame|].
  apply driveAlarm_frame.
Qed.

Lemma activation_sticky i s :
  alarmState s = true -> alarmState (alarmActivationUpdate i s) = true.
Proof.
  intros H. unfold alarmActivationUpdate.
  destruct (sampleTemperature_frame i s) as (_ & G & _).
  destruct (detectCauses_frame i (sampleTemperature i s)) as (_ & _ & _ & D).
  destruct (driveAlarm_frame (detectCauses i (sampleTemperature i s)))
    as (_ & -> & _).
  apply D. rewrite G. exact H.
Qed.

Lemma detectCauses_temperature i s :
  lm35ReadingsArray (detectCauses i s) = lm35ReadingsArray s /\
  lm35SampleIndex (detectCauses i s) = lm35SampleIndex s /\
  lm35ReadingsAverage (detectCauses i s) = lm35ReadingsAverage s /\
  lm35TempC (detectCauses i s) = lm35TempC s.
Proof.
  unfold detectCauses. destruct s; rsimpl. split_ifs; rsimpl; auto.
Qed.

(** C8. The sampling step of [alarmActivationUpdate] writes the reading at
    the cursor and advances the cursor modulo 100, so that the cursor of a
    running program is always in [0,100) and the buffer keeps its 100 slots;
    the temperature it computes is the arithmetic mean of the 100 slots of
    the updated buffer, multiplied by 3.3 and divided by 0.01, in the
    arithmetic of the target (slots added in index order). *)
Theorem temperature_filter :
  (forall s, reachable s ->
     length (lm35ReadingsArray s) = 100%nat /\ 0 <= lm35SampleIndex s < 100) /\
  (forall i s,
     length (lm35ReadingsArray s) = 100%nat ->
     0 <= lm35SampleIndex s < 100 ->
     let s' := alarmActivationUpdate i s in
     lm35ReadingsArray s'
     = <[Z.to_nat (lm35SampleIndex s) := lm35 i]> (lm35ReadingsArray s) /\
     length (lm35ReadingsArray s') = 100%nat /\
     lm35SampleIndex s' = (lm35SampleIndex s + 1) mod 100 /\
     0 <= lm35SampleIndex s' < 100 /\
     lm35ReadingsAverage s' = arithmeticMean (lm35ReadingsArray s') /\
     lm35TempC s'
     = f_of_d (d_div (d_mul (d_of_f (arithmeticMean (lm35ReadingsArray s')))
                            (d_lit (33 # 10)))
                     (d_lit (1 # 100)))).
Proof.
  split.
  - intros s Hs. destruct (reachable_wf s Hs) as [Hr Hi _ _ _ _ _ _].
    split; [exact Hr | exact Hi].
  - intros i s Hlen Hidx. cbv zeta. unfold alarmActivationUpdate.
    destruct (driveAlarm_frame (detectCauses i (sampleTemperature i s)))
      as (_ & _ & -> & -> & -> & ->).
    destruct (detectCauses_temperature i (sampleTemperature i s))
      as (-> & -> & -> & ->).
    rewrite sampleTemperature_eq by assumption.
    cbv zeta. unfold arrayWrite, analogReadingScaledWithTheLM35Formula.
    pose proof (Z.mod_pos_bound (lm35SampleIndex s + 1) 100 eq_refl) as Hm.
    rsimpl. rewrite length_insert. unfold NUMBER_OF_AVG_SAMPLES. auto 10.
Qed.

Lemma driveAlarm_cadence s :
  alarmState s = true ->
  let s' := driveAlarm s in
  let t := add32 (accumulatedTimeAlarm s) TIME_INCREMENT_MS in
  gasDetectorState s' = gasDetectorState s /\
  overTempDetectorState s' = overTempDetectorState s /\
  match blinkingTime s with
  | Some period =>
      if period <=? t
      then accumulatedTimeAlarm s' = 0 /\ alarmLed s' = negb (alarmLed s)
      else accumulatedTimeAlarm s' = t /\ alarmLed s' = alarmLed s
  | None => accumulatedTimeAlarm s' = t /\ alarmLed s' = alarmLed s
  end.
Proof.
  intros H. cbv zeta. rewrite driveAlarm_on by exact H.
  unfold blinkingTime, blink. destruct s; rsimpl. split_ifs; rsimpl; auto.
Qed.

Lemma detectCauses_values i s :
  let hot := f_gt (lm35TempC s) (f_of_int OVER_TEMP_LEVEL) in
  overTempDetector (detectCauses i s) = hot /\
  gasDetectorState (detectCauses i s)
  = gasDetectorState s || negb (mq2 i) || alarmTestButton i /\
  overTempDetectorState (detectCauses i s)
  = overTempDetectorState s || hot || alarmTestButton i /\
  alarmState (detectCauses i s)
  = alarmState s || negb (mq2 i) || hot || alarmTestButton i /\
  sirenPin (detectCauses i s) = sirenPin s.
Proof.
  cbv zeta. rewrite detectCauses_eq. destruct s; rnorm. auto.
Qed.

(** C5. [alarmActivationUpdate] first settles the alarm and its two cause
    flags from their values before, the gas sensor, the over-temperature
    detector and the test button.  On every tick on which the alarm is then
    active the accumulator is advanced by 10 ms and the alarm and the flags
    stay set; with both the gas and the over-temperature flags set the LED
    toggles and the accumulator returns to 0 when it has reached 100 ms,
    with the gas flag alone at 1000 ms, with the over-temperature flag alone
    at 500 ms; below the period, and with neither flag, the LED keeps its
    value and the accumulator its advance.  In a running program the advance
    never wraps. *)
Theorem blink_cadence i s :
  let st := detectCauses i (sampleTemperature i s) in
  let s' := alarmActivationUpdate i s in
  let t := add32 (accumulatedTimeAlarm s) 10 in
  let toggles_at (period : Z) :=
    if period <=? t
    then accumulatedTimeAlarm s' = 0 /\ alarmLed s' = negb (alarmLed s)
    else accumulatedTimeAlarm s' = t /\ alarmLed s' = alarmLed s in
  (alarmState st
   = alarmState s || negb (mq2 i) || overTempDetector st || alarmTestButton i /\
   gasDetectorState st = gasDetectorState s || negb (mq2 i) || alarmTestButton i /\
   overTempDetectorState st
   = overTempDetectorState s || overTempDetector st || alarmTestButton i) /\
  (alarmState st = true ->
   alarmState s' = true /\
   gasDetectorState s' = gasDetectorState st /\
   overTempDetectorState s' = overTempDetectorState st /\
   (gasDetectorState st = true -> overTempDetectorState st = true ->
    toggles_at 100) /\
   (gasDetectorState st = true -> overTempDetectorState st = false ->
    toggles_at 1000) /\
   (gasDetectorState st = false -> overTempDetectorState st = true ->
    toggles_at 500) /\
   (gasDetectorState st = false -> overTempDetectorState st = false ->
    accumulatedTimeAlarm s' = t /\ alarmLed s' = alarmLed s)) /\
  (reachable s -> t = accumulatedTimeAlarm s + 10).
Proof.
  cbv zeta. unfold alarmActivationUpdate.
  pose proof (sampleTemperature_frame i s) as Hs. cbv zeta in Hs.
  destruct Hs as (_ & Hon0 & Hg0 & Ho0 & Ha & Hl).
  pose proof (detectCauses_values i (sampleTemperature i s)) as Hv. cbv zeta in Hv.
  destruct Hv as (Hhot & Hg & Ho & Hon & _).
  destruct (detectCauses_frame i (sampleTemperature i s)) as (_ & Ha' & Hl' & _).
  rewrite Hg0 in Hg. rewrite <- Hhot, Ho0 in Ho. rewrite <- Hhot, Hon0 in Hon.
  set (st := detectCauses i (sampleTemperature i s)) in *. clearbody st.
  split; [auto|]. split.
  - intros Hact. destruct (driveAlarm_frame st) as (_ & Hkeep & _).
    destruct (driveAlarm_cadence st Hact) as (Hg' & Ho' & Hc).
    unfold blinkingTime in Hc. unfold TIME_INCREMENT_MS in Hc.
    rewrite Ha', Ha, Hl', Hl in Hc.
    split; [rewrite Hkeep; exact Hact|]. split; [exact Hg'|]. split; [exact Ho'|].
    split; [|split; [|split]]; intros Hgas Hover; rewrite Hgas, Hover in Hc;
      exact Hc.
  - intros Hr. destruct (reachable_wf s Hr) as [_ _ _ _ _ Ht _ _].
    apply add32_small. unfold BLINKING_TIME_GAS_ALARM in Ht. lia.
Qed.

(** ** What the two code paths leave alone *)

Lemma deactivation_frame i s :
  let s' := alarmDeactivationUpdate i s in
  accumulatedTimeAlarm s' = accumulatedTimeAlarm s /\
  alarmLed s' = alarmLed s /\
  codeSequence s' = codeSequence s.
Proof.
  cbv zeta.
  destruct (deactivation_cases i s) as [[_ ->]|[(_ & _ & ->)|(_ & _ & ->)]];
    try destruct (areEqual _); rsimpl; auto.
Qed.

Lemma uartTask_frame i rx s rest s' :
  uartTask i rx s = Some (rest, s') ->
  accumulatedTimeAlarm s' = accumulatedTimeAlarm s /\
  alarmLed s' = alarmLed s /\
  systemBlockedLed s' = systemBlockedLed s /\
  buttonsPressed s' = buttonsPressed s.
Proof.
  intros H.
  destruct (uartTask_cases _ _ _ _ _ H)
    as [(bs & _ & _ & ->)|[(bs & _ & _ & ->)|(pot & evs & -> & _)]];
    unfold codeEntryResult, newCodeResult;
    try destruct (keysAccepted _ _ _); rsimpl; auto.
Qed.

Lemma driveAlarm_off_fields s :
  alarmState s = false ->
  alarmLed (driveAlarm s) = false /\ gasDetectorState (driveAlarm s) = false /\
  overTempDetectorState (driveAlarm s) = false /\
  sirenPinDirection (driveAlarm s) = PinInput /\
  accumulatedTimeAlarm (driveAlarm s) = accumulatedTimeAlarm s.
Proof.
  unfold driveAlarm. destruct s; rsimpl. intros ->. rsimpl. auto.
Qed.

Lemma detectCauses_flag i s :
  alarmState s = false ->
  alarmState (detectCauses i s) = true ->
  gasDetectorState (detectCauses i s) || overTempDetectorState (detectCauses i s)
  = true.
Proof.
  unfold detectCauses. destruct s; rsimpl. intros ->.
  split_ifs; rsimpl; auto;
    repeat match goal with b : bool |- _ => destruct b end; auto.
Qed.

(** C4, as the program has it. The accumulated time is left as it is when
    the alarm goes from active to inactive: neither code path writes it or
    the LED, and the activation update of a tick on which the alarm is
    inactive turns the LED off, clears the two cause flags and releases the
    siren pin, but keeps the accumulator.  The tick on which the alarm
    becomes active again therefore continues from the value that was left,
    advanced by 10 ms and compared with the selected period. *)
Theorem blink_timer_kept_on_deactivation :
  (forall i s,
     accumulatedTimeAlarm (alarmDeactivationUpdate i s) = accumulatedTimeAlarm s /\
     alarmLed (alarmDeactivationUpdate i s) = alarmLed s) /\
  (forall i rx s rest s',
     uartTask i rx s = Some (rest, s') ->
     accumulatedTimeAlarm s' = accumulatedTimeAlarm s /\ alarmLed s' = alarmLed s) /\
  (forall i s,
     let s' := alarmActivationUpdate i s in
     alarmState s' = false ->
     alarmLed s' = false /\ gasDetectorState s' = false /\
     overTempDetectorState s' = false /\ sirenPinDirection s' = PinInput /\
     accumulatedTimeAlarm s' = accumulatedTimeAlarm s) /\
  (forall i s,
     let s' := alarmActivationUpdate i s in
     alarmState s = false -> alarmState s' = true ->
     exists period,
       blinkingTime s' = Some period /\
       accumulatedTimeAlarm s'
       = if period <=? add32 (accumulatedTimeAlarm s) 10
         then 0 else add32 (accumulatedTimeAlarm s) 10).
Proof.
  split; [|split; [|split]].
  - intros i s. destruct (deactivation_frame i s) as (H1 & H2 & _). auto.
  - intros i rx s rest s' H.
    destruct (uartTask_frame _ _ _ _ _ H) as (H1 & H2 & _). auto.
  - intros i s. cbv zeta. unfold alarmActivationUpdate.
    destruct (sampleTemperature_frame i s) as (_ & _ & _ & _ & Ha & _).
    destruct (detectCauses_frame i (sampleTemperature i s)) as (_ & Ha' & _).
    set (st := detectCauses i (sampleTemperature i s)) in *. clearbody st.
    destruct (driveAlarm_frame st) as (_ & -> & _). intros Hoff.
    destruct (driveAlarm_off_fields st Hoff) as (? & ? & ? & ? & ?).
    repeat split; congruence.
  - intros i s. cbv zeta. unfold alarmActivationUpdate.
    destruct (sampleTemperature_frame i s) as (_ & Hs & Hg & Ho & Ha & _).
    intros Hoff. rewrite <- Hs in Hoff.
    pose proof (detectCauses_flag i _ Hoff) as Hflag.
    destruct (detectCauses_frame i (sampleTemperature i s)) as (_ & Ha' & _).
    set (st := detectCauses i (sampleTemperature i s)) in *. clearbody st.
    destruct (driveAlarm_frame st) as (_ & -> & _). intros Hon.
    specialize (Hflag Hon).
    destruct (driveAlarm_cadence st Hon) as (Hg' & Ho' & Hc).
    unfold blinkingTime in *. rewrite Hg', Ho'.
    unfold TIME_INCREMENT_MS in Hc. rewrite Ha', Ha in Hc.
    destruct (gasDetectorState st), (overTempDetectorState st);
      try discriminate; cbn in Hc |- *;
      (eexists; split; [reflexivity|]);
      match goal with
      | |- context [if ?b then _ else _] => destruct b
      end; apply Hc.
Qed.

(** ** One call of each code path, by what it reports *)

Lemma deactivation_summary i s :
  let s' := alarmDeactivationUpdate i s in
  (events s' = events s /\ alarmState s' = alarmState s /\
   numberOfIncorrectCodes s' = numberOfIncorrectCodes s /\
   (5 <= numberOfIncorrectCodes s \/ keypadGate i s = false) /\
   incorrectCodeLed s'
   = incorrectCodeLed s && negb (latchRelease i && (numberOfIncorrectCodes s <? 5)) /\
   systemBlockedLed s' = systemBlockedLed s || (5 <=? numberOfIncorrectCodes s))
  \/ (numberOfIncorrectCodes s < 5 /\ keypadGate i s = true /\
      systemBlockedLed s' = systemBlockedLed s /\
      ((events s' = events s ++ [AreEqual true] /\ alarmState s' = false /\
        incorrectCodeLed s' = false /\ numberOfIncorrectCodes s' = 0)
       \/ (events s' = events s ++ [AreEqual false] /\ alarmState s' = true /\
           incorrectCodeLed s' = true /\
           numberOfIncorrectCodes s' = add32 (numberOfIncorrectCodes s) 1))).
Proof.
  cbv zeta.
  destruct (deactivation_cases i s) as [[Hn ->]|[(Hn & Hg & ->)|(Hn & Hg & ->)]].
  - left. rsimpl. destruct (Z.ltb_spec (numberOfIncorrectCodes s) 5); [lia|].
    destruct (Z.leb_spec 5 (numberOfIncorrectCodes s)); [|lia].
    rewrite andb_false_r, andb_true_r, orb_true_r. auto 10.
  - left. rsimpl. destruct (Z.ltb_spec (numberOfIncorrectCodes s) 5); [|lia].
    destruct (Z.leb_spec 5 (numberOfIncorrectCodes s)); [lia|].
    rewrite andb_true_r, orb_false_r. auto 10.
  - right. pose proof Hg as Hg'. unfold keypadGate in Hg'.
    apply andb_prop in Hg' as [Hg1 Ea]. apply andb_prop in Hg1 as [Ee El].
    apply negb_true_iff in El.
    split; [exact Hn|]. split; [exact Hg|].
    destruct (areEqual _); rsimpl; (split; [reflexivity|]); [left|right]; auto.
Qed.

Lemma isQuiet_status e : isStatusWrite e -> isQuiet e.
Proof.
  intros [(buf & len & ->) H]. split; [|exact H]. intros [r [=]].
Qed.

Lemma isQuiet_printf text : isQuiet (Printf text).
Proof. split; [intros [r [=]] | intros [[=]|[=]]]. Qed.

Lemma isQuiet_echo : isQuiet echo.
Proof. split; [intros [r [=]] | intros [[=]|[=]]]. Qed.

Lemma codeEntryPromptEvents_quiet : Forall isQuiet codeEntryPromptEvents.
Proof.
  unfold codeEntryPromptEvents, codeEntryPrompt, uartWrite, emit. cbn.
  repeat (constructor; [apply isQuiet_status; status_write|]). constructor.
Qed.

Lemma newCodeEvents_quiet :
  Forall isQuiet
    (newCodePromptEvents ++ replicate 4 echo
     ++ [UartWrite (CRLF +:+ "New code generated" +:+ CRLF +:+ CRLF) 24]).
Proof.
  unfold newCodePromptEvents, newCodePrompt, uartWrite, emit. cbn.
  repeat (constructor; [apply isQuiet_status; status_write|]). constructor.
Qed.

Lemma uartTask_summary i rx s rest s' :
  uartTask i rx s = Some (rest, s') ->
  exists evs,
    events s' = events s ++ evs /\
    ((Forall isQuiet evs /\ alarmState s' = alarmState s /\
      incorrectCodeLed s' = incorrectCodeLed s /\
      numberOfIncorrectCodes s' = numberOfIncorrectCodes s)
     \/ (exists quiet,
           evs = quiet ++ [UartWrite codeCorrectText 25] /\ Forall isQuiet quiet /\
           alarmState s' = false /\ incorrectCodeLed s' = false /\
           numberOfIncorrectCodes s' = 0)
     \/ (exists quiet,
           evs = quiet ++ [UartWrite codeIncorrectText 27] /\ Forall isQuiet quiet /\
           alarmState s' = alarmState s /\ incorrectCodeLed s' = true /\
           numberOfIncorrectCodes s' = add32 (numberOfIncorrectCodes s) 1)).
Proof.
  intros H.
  destruct (uartTask_cases _ _ _ _ _ H)
    as [(bs & _ & _ & ->)|[(bs & _ & _ & ->)|(pot & evs & -> & Hq)]].
  - assert (Hq : Forall isQuiet
                   ([Printf "UART Task initiated."] ++ codeEntryPromptEvents
                    ++ replicate 4 echo)).
    { apply Forall_app; split; [repeat constructor; apply isQuiet_printf|].
      apply Forall_app; split; [apply codeEntryPromptEvents_quiet|].
      repeat constructor; apply isQuiet_echo. }
    unfold codeEntryResult. rsimpl. destruct (keysAccepted _ _ _); rsimpl.
    + exists (([Printf "UART Task initiated."] ++ codeEntryPromptEvents
                ++ replicate 4 echo) ++ [UartWrite codeCorrectText 25]).
      split; [cbn; rewrite <- !app_assoc; reflexivity|].
      right; left. eexists. split; [reflexivity|split; [exact Hq|auto]].
    + exists (([Printf "UART Task initiated."] ++ codeEntryPromptEvents
                ++ replicate 4 echo) ++ [UartWrite codeIncorrectText 27]).
      split; [cbn; rewrite <- !app_assoc; reflexivity|].
      right; right. eexists. split; [reflexivity|split; [exact Hq|auto]].
  - unfold newCodeResult. rsimpl.
    exists ([Printf "UART Task initiated."] ++ newCodePromptEvents
            ++ replicate 4 echo
            ++ [UartWrite (CRLF +:+ "New code generated" +:+ CRLF +:+ CRLF) 24]).
    split; [cbn; rewrite <- !app_assoc; reflexivity|].
    left. split; [|auto].
    constructor; [apply isQuiet_printf | apply newCodeEvents_quiet].
  - rsimpl. exists ([Printf "UART Task initiated."] ++ evs).
    split; [rewrite <- !app_assoc; reflexivity|].
    left. split; [|auto].
    constructor; [apply isQuiet_printf|].
    eapply Forall_impl; [exact Hq | apply isQuiet_status].
Qed.

(** ** Runs of the main loop *)

Lemma iteration_events i rx s s' :
  mainLoopIteration i rx s = Some s' -> exists evs, events s' = events s ++ evs.
Proof.
  unfold mainLoopIteration. intros H.
  destruct (uartTask _ _ _) as [[rest s2]|] eqn:E; [|discriminate].
  injection H as <-.
  destruct (uartTask_summary _ _ _ _ _ E) as (evs & -> & _).
  destruct (activation_sameLock i s) as (_ & _ & _ & _ & _ & Hev).
  destruct (deactivation_summary i (alarmActivationUpdate i s))
    as [(-> & _)|(_ & _ & _ & [(-> & _)|(-> & _)])];
    rewrite Hev; rewrite <- ?app_assoc; eauto.
Qed.

Lemma mainLoop_events script s s' :
  mainLoop script s = Some s' -> exists evs, events s' = events s ++ evs.
Proof.
  revert s. induction script as [|[i rx] script IH]; intros s H.
  - injection H as <-. exists []. rewrite app_nil_r. reflexivity.
  - cbn [mainLoop] in H.
    destruct (mainLoopIteration i rx s) as [s1|] eqn:E; [|discriminate].
    destruct (iteration_events _ _ _ _ E) as (evs1 & H1).
    destruct (IH _ H) as (evs2 & ->). rewrite H1, <- app_assoc. eauto.
Qed.

Lemma iteration_sticky i rx s s' :
  alarmState s = true ->
  mainLoopIteration i rx s = Some s' ->
  exists evs,
    events s' = events s ++ evs /\ (alarmState s' = true \/ Exists reportsMatch evs).
Proof.
  unfold mainLoopIteration. intros Hon H.
  destruct (uartTask _ _ _) as [[rest s2]|] eqn:E; [|discriminate].
  injection H as <-.
  destruct (activation_sameLock i s) as (_ & _ & _ & _ & _ & Hev).
  pose proof (activation_sticky i s Hon) as Hon1.
  set (s1 := alarmActivationUpdate i s) in *. clearbody s1.
  destruct (uartTask_summary _ _ _ _ _ E)
    as (evs & -> & [(_ & -> & _)|[(q & -> & _)|(q & -> & _ & -> & _)]]).
  - destruct (deactivation_summary i s1)
      as [(-> & -> & _)|(_ & _ & _ & [(-> & _)|(-> & -> & _)])];
      rewrite Hev; rewrite <- ?app_assoc.
    + eauto.
    + eexists. split; [reflexivity|]. right. constructor. left. reflexivity.
    + eauto.
  - assert (Hq : Exists reportsMatch (q ++ [UartWrite codeCorrectText 25]))
      by (apply Exists_app; right; constructor; right; reflexivity).
    destruct (deactivation_summary i s1)
      as [(-> & _)|(_ & _ & _ & [(-> & _)|(-> & _)])];
      rewrite Hev; rewrite <- ?app_assoc;
      (eexists; split; [reflexivity|]); right;
      first [exact Hq | apply Exists_app; right; exact Hq].
  - destruct (deactivation_summary i s1)
      as [(-> & -> & _)|(_ & _ & _ & [(-> & _)|(-> & -> & _)])];
      rewrite Hev; rewrite <- ?app_assoc.
    + eauto.
    + eexists. split; [reflexivity|]. right. constructor. left. reflexivity.
    + eauto.
Qed.

Lemma iteration_without_code_entry i rx s s' :
  enterButton i = false -> head rx <> Some "4"%char ->
  mainLoopIteration i rx s = Some s' ->
  alarmState s' = alarmState (alarmActivationUpdate i s).
Proof.
  unfold mainLoopIteration. intros He Hrx H.
  destruct (uartTask _ _ _) as [[rest s2]|] eqn:E; [|discriminate].
  injection H as <-.
  set (s1 := alarmActivationUpdate i s) in *. clearbody s1.
  assert (Hd : alarmState (alarmDeactivationUpdate i s1) = alarmState s1).
  { destruct (deactivation_summary i s1) as [(_ & -> & _)|(_ & Hg & _)]; auto.
    unfold keypadGate in Hg. rewrite He in Hg. discriminate. }
  rewrite <- Hd.
  destruct (uartTask_cases _ _ _ _ _ E)
    as [(bs & -> & _)|[(bs & _ & _ & ->)|(pot & evs & -> & _)]].
  - exfalso. apply Hrx. reflexivity.
  - reflexivity.
  - reflexivity.
Qed.

(** C2. Sticky activation: over any run of the main loop that starts with
    the alarm active, whatever the sensors read, the alarm is still active
    at the end unless the run reported a successful code verification (the
    call of [areEqual] of the keypad path returned true, or command '4'
    sent its "code is correct" text); in particular the alarm stays active
    over every run in which Enter is never pressed and command '4' is never
    received. *)
Theorem sticky_activation :
  (forall script s s',
     alarmState s = true -> mainLoop script s = Some s' ->
     exists evs,
       events s' = events s ++ evs /\
       (alarmState s' = true \/ Exists reportsMatch evs)) /\
  (forall script s s',
     alarmState s = true -> mainLoop script s = Some s' ->
     Forall (fun tick => enterButton (fst tick) = false /\
                         head (snd tick) <> Some "4"%char) script ->
     alarmState s' = true).
Proof.
  split.
  - induction script as [|[i rx] script IH]; intros s s' Hon H.
    + injection H as <-. exists []. rewrite app_nil_r. auto.
    + cbn [mainLoop] in H.
      destruct (mainLoopIteration i rx s) as [s1|] eqn:E; [|discriminate].
      destruct (iteration_sticky _ _ _ _ Hon E) as (evs1 & H1 & [Hon1|Hm]).
      * destruct (IH _ _ Hon1 H) as (evs2 & -> & Hc).
        exists (evs1 ++ evs2). rewrite H1, <- app_assoc. split; [reflexivity|].
        destruct Hc as [Hc|Hc]; [left; exact Hc|].
        right. apply Exists_app. right. exact Hc.
      * destruct (mainLoop_events _ _ _ H) as (evs2 & ->).
        exists (evs1 ++ evs2). rewrite H1, <- app_assoc. split; [reflexivity|].
        right. apply Exists_app. left. exact Hm.
  - induction script as [|[i rx] script IH]; intros s s' Hon H Hq.
    + injection H as <-. exact Hon.
    + cbn [mainLoop] in H.
      destruct (mainLoopIteration i rx s) as [s1|] eqn:E; [|discriminate].
      inversion Hq as [|? ? [He Hrx] Hq']; subst. cbn in He, Hrx.
      apply (IH s1 s'); [|exact H|exact Hq'].
      rewrite (iteration_without_code_entry _ _ _ _ He Hrx E).
      apply activation_sticky, Hon.
Qed.

Lemma iteration_blocked i rx s s' :
  mainLoopIteration i rx s = Some s' ->
  systemBlockedLed s' = systemBlockedLed s || (5 <=? numberOfIncorrectCodes s).
Proof.
  unfold mainLoopIteration. intros H.
  destruct (uartTask _ _ _) as [[rest s2]|] eqn:E; [|discriminate].
  injection H as <-.
  destruct (uartTask_frame _ _ _ _ _ E) as (_ & _ & -> & _).
  destruct (activation_sameLock i s) as (Hn & _ & _ & _ & Hb & _).
  set (s1 := alarmActivationUpdate i s) in *. clearbody s1.
  destruct (deactivation_summary i s1) as [(_ & _ & _ & _ & _ & ->)|(Hlt & _ & -> & _)].
  - rewrite Hb, Hn. reflexivity.
  - rewrite Hb. rewrite Hn in Hlt.
    destruct (Z.leb_spec 5 (numberOfIncorrectCodes s)); [lia|].
    rewrite orb_false_r. reflexivity.
Qed.

(** C10. The system-blocked LED is turned on by a call of
    [alarmDeactivationUpdate] that finds the counter at 5 or more, and by
    nothing else; once on it stays on over every run of the main loop,
    whatever happens to the counter afterwards. *)
Theorem system_blocked_led_permanent :
  (forall i s,
     5 <= numberOfIncorrectCodes s ->
     systemBlockedLed (alarmDeactivationUpdate i s) = true) /\
  (forall i rx s s',
     mainLoopIteration i rx s = Some s' ->
     systemBlockedLed s = false -> systemBlockedLed s' = true ->
     5 <= numberOfIncorrectCodes s) /\
  (forall script s s',
     systemBlockedLed s = true -> mainLoop script s = Some s' ->
     systemBlockedLed s' = true).
Proof.
  split; [|split].
  - intros i s Hn.
    destruct (deactivation_summary i s) as [(_ & _ & _ & _ & _ & ->)|(Hlt & _)];
      [|lia].
    destruct (Z.leb_spec 5 (numberOfIncorrectCodes s)); [|lia].
    apply orb_true_r.
  - intros i rx s s' H Hoff Hon.
    rewrite (iteration_blocked _ _ _ _ H), Hoff in Hon.
    apply Z.leb_le. exact Hon.
  - induction script as [|[i rx] script IH]; intros s s' Hon H.
    + injection H as <-. exact Hon.
    + cbn [mainLoop] in H.
      destruct (mainLoopIteration i rx s) as [s1|] eqn:E; [|discriminate].
      apply (IH s1 s'); [|exact H].
      rewrite (iteration_blocked _ _ _ _ E), Hon. reflexivity.
Qed.

(** ** The keypad latch *)

Lemma isQuiet_not_keypad evs :
  Forall isQuiet evs -> Forall (fun e => ~ isKeypadEvaluation e) evs.
Proof. intros H. eapply Forall_impl; [exact H|]. intros e [Hk _]. exact Hk. Qed.

Lemma iteration_latched i rx s s' :
  incorrectCodeLed s = true -> latchRelease i = false ->
  mainLoopIteration i rx s = Some s' ->
  exists evs,
    events s' = events s ++ evs /\
    (Exists (fun e => e = UartWrite codeCorrectText 25) evs
     \/ (incorrectCodeLed s' = true /\
         Forall (fun e => ~ isKeypadEvaluation e) evs)).
Proof.
  unfold mainLoopIteration. intros Hled Hrel H.
  destruct (uartTask _ _ _) as [[rest s2]|] eqn:E; [|discriminate].
  injection H as <-.
  destruct (activation_sameLock i s) as (_ & _ & _ & Hl & _ & Hev).
  set (s1 := alarmActivationUpdate i s) in *. clearbody s1.
  rewrite <- Hl in Hled. rewrite <- Hev. clear Hl Hev.
  destruct (deactivation_summary i s1)
    as [(Hev & _ & _ & _ & Hl & _)|(_ & Hg & _)].
  2:{ unfold keypadGate in Hg. rewrite Hled, Hrel in Hg.
      destruct (enterButton i); discriminate. }
  rewrite Hled, Hrel in Hl. cbn in Hl. rewrite <- Hev. clear Hev.
  set (s1' := alarmDeactivationUpdate i s1) in *. clearbody s1'.
  destruct (uartTask_summary _ _ _ _ _ E)
    as (evs & -> & [(Hq & _ & -> & _)|[(q & -> & _)|(q & -> & Hq & _ & -> & _)]]).
  - exists evs. split; [reflexivity|]. right.
    split; [exact Hl | apply isQuiet_not_keypad, Hq].
  - eexists. split; [reflexivity|]. left.
    apply Exists_app. right. constructor. reflexivity.
  - eexists. split; [reflexivity|]. right. split; [reflexivity|].
    apply Forall_app. split; [apply isQuiet_not_keypad, Hq|].
    constructor; [|constructor]. intros [r [=]].
Qed.

(** C3, as the program has it.  [alarmDeactivationUpdate] reads the keys
    twice: the test of line 303 turns the incorrect-code LED off when the
    counter is below 5 and the four keys A, B, C, D are all held down with
    Enter released; the test of line 306 then compares the keys when Enter is
    down, the LED is off and the alarm is active.  So a call entered with the
    LED on compares no keys and leaves the LED on unless the test of line 303
    succeeds; when it succeeds the LED is off from there on, and the same
    call compares the keys exactly when line 306 reads Enter as down and the
    alarm is active.  Over a run in which the test of line 303 never
    succeeds, either command '4' reported a correct code (which also turns
    the LED off), or the LED is still on at the end and the keypad compared
    no keys during the run.  Once the LED is off, with the counter below 5
    and the alarm active, pressing Enter makes the keypad path compare the
    keys. *)
Theorem keypad_latch_gate :
  (forall i s,
     incorrectCodeLed s = true ->
     let s' := alarmDeactivationUpdate i s in
     let released :=
       (numberOfIncorrectCodes s <? 5)
       && (aButtonLatch i && bButtonLatch i && cButtonLatch i && dButtonLatch i
           && negb (enterButtonLatch i)) in
     (released = false ->
      events s' = events s /\ alarmState s' = alarmState s /\
      numberOfIncorrectCodes s' = numberOfIncorrectCodes s /\
      incorrectCodeLed s' = true) /\
     (released = true -> enterButton i && alarmState s = false ->
      events s' = events s /\ alarmState s' = alarmState s /\
      numberOfIncorrectCodes s' = numberOfIncorrectCodes s /\
      incorrectCodeLed s' = false) /\
     (released = true -> enterButton i && alarmState s = true ->
      exists r,
        events s' = events s ++ [AreEqual r] /\ incorrectCodeLed s' = negb r /\
        alarmState s' = negb r /\
        numberOfIncorrectCodes s'
        = if r then 0 else add32 (numberOfIncorrectCodes s) 1)) /\
  (forall script s s',
     incorrectCodeLed s = true -> mainLoop script s = Some s' ->
     Forall (fun tick =>
               aButtonLatch (fst tick) && bButtonLatch (fst tick)
               && cButtonLatch (fst tick) && dButtonLatch (fst tick)
               && negb (enterButtonLatch (fst tick)) = false)
            script ->
     exists evs,
       events s' = events s ++ evs /\
       (Exists (fun e => e = UartWrite codeCorrectText 25) evs
        \/ (incorrectCodeLed s' = true /\
            Forall (fun e => ~ isKeypadEvaluation e) evs))) /\
  (forall i s,
     incorrectCodeLed s = false -> numberOfIncorrectCodes s < 5 ->
     enterButton i = true -> alarmState s = true ->
     exists r, events (alarmDeactivationUpdate i s) = events s ++ [AreEqual r]).
Proof.
  split; [|split].
  - intros i s Hled. cbv zeta. fold (latchRelease i).
    destruct (deactivation_summary i s)
      as [(Hev & Ha & Hn & Hc & Hl & _)
         |(Hlt & Hg & _ & [(Hev & Ha & Hl & Hn)|(Hev & Ha & Hl & Hn)])].
    + rewrite Hled in Hl. cbn [andb] in Hl.
      split; [|split].
      * intros Hrel. rewrite andb_comm in Hrel. rewrite Hrel in Hl. auto.
      * intros Hrel _. rewrite andb_comm in Hrel. rewrite Hrel in Hl. auto.
      * intros Hrel He. apply andb_true_iff in Hrel as [Hn5 Hrel].
        apply andb_true_iff in He as [He Hon].
        destruct Hc as [Hc|Hc]; [apply Z.ltb_lt in Hn5; lia|].
        unfold keypadGate in Hc. rewrite He, Hled, Hrel, Hon in Hc. discriminate.
    + unfold keypadGate in Hg. rewrite Hled in Hg.
      apply Z.ltb_lt in Hlt. rewrite Hlt. cbn [andb] in *.
      destruct (latchRelease i); [|destruct (enterButton i); discriminate].
      destruct (enterButton i), (alarmState s); try discriminate.
      split; [discriminate|]. split; [discriminate|].
      intros _ _. exists true. rewrite Hev, Ha, Hl, Hn. auto.
    + unfold keypadGate in Hg. rewrite Hled in Hg.
      apply Z.ltb_lt in Hlt. rewrite Hlt. cbn [andb] in *.
      destruct (latchRelease i); [|destruct (enterButton i); discriminate].
      destruct (enterButton i), (alarmState s); try discriminate.
      split; [discriminate|]. split; [discriminate|].
      intros _ _. exists false. rewrite Hev, Ha, Hl, Hn. auto.
  - induction script as [|[i rx] script IH]; intros s s' Hled H Hq.
    + injection H as <-. exists []. rewrite app_nil_r.
      split; [reflexivity|]. right. split; [exact Hled | constructor].
    + cbn [mainLoop] in H.
      destruct (mainLoopIteration i rx s) as [s1|] eqn:E; [|discriminate].
      inversion Hq as [|? ? Hrel Hq']; subst. cbn [fst] in Hrel.
      destruct (iteration_latched _ _ _ _ Hled Hrel E) as (evs1 & H1 & [Hm|[Hl Hk]]).
      * destruct (mainLoop_events _ _ _ H) as (evs2 & ->).
        exists (evs1 ++ evs2). rewrite H1, <- app_assoc. split; [reflexivity|].
        left. apply Exists_app. left. exact Hm.
      * destruct (IH _ _ Hl H Hq') as (evs2 & -> & Hc).
        exists (evs1 ++ evs2). rewrite H1, <- app_assoc. split; [reflexivity|].
        destruct Hc as [Hc|[Hc1 Hc2]].
        -- left. apply Exists_app. right. exact Hc.
        -- right. split; [exact Hc1|]. apply Forall_app. auto.
  - intros i s Hled Hn He Ha.
    destruct (deactivation_summary i s)
      as [(_ & _ & _ & [Hc|Hc] & _)|(_ & _ & _ & [(-> & _)|(-> & _)])]; eauto.
    + lia.
    + unfold keypadGate in Hc. rewrite He, Hled, Ha in Hc. discriminate.
Qed.

(** Once the counter has reached 5 the keypad path does nothing but turn
    the system-blocked LED on. *)
Lemma lockout_blocks_keypad i s :
  5 <= numberOfIncorrectCodes s ->
  alarmDeactivationUpdate i s = s<|systemBlockedLed := true|>.
Proof.
  intros Hn.
  destruct (deactivation_cases i s) as [[_ H]|[(Hlt & _)|(Hlt & _)]];
    [exact H | lia | lia].
Qed.

(** ** Codes received on the serial line *)

Lemma keyAccepted_spec c d :
  keyAccepted c d = true <-> isDigit c = true /\ digitOf c = d.
Proof.
  unfold keyAccepted, isDigit, digitOf.
  destruct (Ascii.eqb_spec c "1") as [->|H1]; cbn.
  - destruct (Z.eqb_spec d 1); cbn; intuition (congruence || lia).
  - destruct (Ascii.eqb c "0"); cbn; [|intuition congruence].
    destruct (Z.eqb_spec d 0); cbn; intuition (congruence || lia).
Qed.

Lemma keysAccepted_spec bs s :
  length (codeSequence s) = 4%nat -> length bs = 4%nat ->
  keysAccepted (codeSequence s) 0 bs = true <-> spellsCode bs s.
Proof.
  unfold spellsCode. intros Hc Hb.
  destruct (codeSequence s) as [|c0 [|c1 [|c2 [|c3 [|]]]]]; try discriminate.
  destruct bs as [|b0 [|b1 [|b2 [|b3 [|]]]]]; try discriminate.
  cbn [keysAccepted map]. unfold arrayRead. eval_indices. cbn [nth].
  rewrite !andb_true_iff, !keyAccepted_spec. split.
  - intros ((? & ?) & (? & ?) & (? & ?) & (? & ?) & _).
    split; [repeat constructor; assumption | congruence].
  - intros [Hd [= <- <- <- <-]].
    inversion Hd as [|? ? ? Hd1]; subst. inversion Hd1 as [|? ? ? Hd2]; subst.
    inversion Hd2 as [|? ? ? Hd3]; subst. inversion Hd3; subst. auto 10.
Qed.

Lemma keysStored_spec bs code :
  length code = 4%nat -> length bs = 4%nat ->
  keysStored code 0 bs = zip_with storedDigit bs code.
Proof.
  intros Hc Hb.
  destruct code as [|c0 [|c1 [|c2 [|c3 [|]]]]]; try discriminate.
  destruct bs as [|b0 [|b1 [|b2 [|b3 [|]]]]]; try discriminate.
  unfold storedDigit. cbn [keysStored zip_with].
  destruct (Ascii.eqb b0 "1"), (Ascii.eqb b0 "0"), (Ascii.eqb b1 "1"),
    (Ascii.eqb b1 "0"), (Ascii.eqb b2 "1"), (Ascii.eqb b2 "0"),
    (Ascii.eqb b3 "1"), (Ascii.eqb b3 "0"); reflexivity.
Qed.

Lemma uartTask_codeEntry i rx s :
  uartTask i ("4"%char :: rx) s
  = codeEntry rx (emit (Printf "UART Task initiated.") s).
Proof. reflexivity. Qed.

Lemma uartTask_newCode i rx s :
  uartTask i ("5"%char :: rx) s
  = newCode rx (emit (Printf "UART Task initiated.") s).
Proof. reflexivity. Qed.

(** Command '4' with its four bytes: what is sent and what is left. *)
Lemma serial_entry i bs rest s :
  length bs = 4%nat ->
  exists s',
    uartTask i ("4"%char :: bs ++ rest) s = Some (rest, s') /\
    let sent := events s ++ [Printf "UART Task initiated."]
                ++ codeEntryPromptEvents ++ replicate 4 echo in
    if keysAccepted (codeSequence s) 0 bs then
      events s' = sent ++ [UartWrite codeCorrectText 25] /\
      alarmState s' = false /\ incorrectCodeLed s' = false /\
      numberOfIncorrectCodes s' = 0 /\ incorrectCode s' = false
    else
      events s' = sent ++ [UartWrite codeIncorrectText 27] /\
      alarmState s' = alarmState s /\ incorrectCodeLed s' = true /\
      numberOfIncorrectCodes s' = add32 (numberOfIncorrectCodes s) 1 /\
      incorrectCode s' = true.
Proof.
  intros Hb. rewrite uartTask_codeEntry, codeEntry_eq by exact Hb.
  eexists. split; [reflexivity|]. cbv zeta.
  unfold codeEntryResult, emit. rsimpl.
  destruct (keysAccepted _ _ _); rsimpl; rewrite <- !app_assoc; auto 10.
Qed.

Lemma keysAccepted_invalid code k bs :
  Exists (fun c => isDigit c = false) bs -> keysAccepted code k bs = false.
Proof.
  intros H. revert k. induction H as [c bs Hc|c bs _ IH]; intros k; cbn [keysAccepted].
  - destruct (keyAccepted c _) eqn:E; [|reflexivity].
    apply keyAccepted_spec in E as [E _]. congruence.
  - rewrite IH. apply andb_false_r.
Qed.


(** C7. The two serial sub-protocols treat a byte that is neither '0' nor
    '1' differently.  Command '4' reads all four bytes, echoes "*" for
    each, and answers "incorrect" as soon as one of them is no digit.
    Command '5' reads all four bytes, echoes "*" for each, and stores '1'
    and '0' as digits of the code while a position whose byte is no digit
    keeps its old digit. *)
Theorem invalid_digit_asymmetry :
  (forall i s bs rest,
     length bs = 4%nat -> Exists (fun c => isDigit c = false) bs ->
     exists s',
       uartTask i ("4"%char :: bs ++ rest) s = Some (rest, s') /\
       events s'
       = events s ++ [Printf "UART Task initiated."] ++ codeEntryPromptEvents
         ++ replicate 4 echo ++ [UartWrite codeIncorrectText 27] /\
       incorrectCode s' = true /\ incorrectCodeLed s' = true /\
       numberOfIncorrectCodes s' = add32 (numberOfIncorrectCodes s) 1 /\
       codeSequence s' = codeSequence s) /\
  (forall i s bs rest,
     length (codeSequence s) = 4%nat -> length bs = 4%nat ->
     exists s',
       uartTask i ("5"%char :: bs ++ rest) s = Some (rest, s') /\
       events s'
       = events s ++ [Printf "UART Task initiated."] ++ newCodePromptEvents
         ++ replicate 4 echo
         ++ [UartWrite (CRLF +:+ "New code generated" +:+ CRLF +:+ CRLF) 24] /\
       codeSequence s' = zip_with storedDigit bs (codeSequence s)).
Proof.
  split.
  - intros i s bs rest Hb Hbad.
    rewrite uartTask_codeEntry, codeEntry_eq by exact Hb.
    eexists. split; [reflexivity|].
    unfold codeEntryResult, emit. rsimpl.
    rewrite (keysAccepted_invalid _ _ _ Hbad). rsimpl.
    rewrite <- !app_assoc. auto 10.
  - intros i s bs rest Hc Hb.
    rewrite uartTask_newCode, newCode_eq by exact Hb.
    eexists. split; [reflexivity|].
    unfold newCodeResult, emit. rsimpl. rewrite <- !app_assoc.
    split; [reflexivity|]. apply keysStored_spec; assumption.
Qed.


End Facts.
(** * Further properties of the program *)

Section Coverage.
Context {FA : FloatArith}.
Implicit Types (s : State) (i : Inputs) (rx bs rest : list ascii).
Implicit Types (script : list (Inputs * list ascii)).

(** ** The serial line *)

Lemma keysLoop_None body n rx s :
  keysLoop body n rx s = None <-> (length rx < n)%nat.
Proof.
  split; [|apply keysLoop_short].
  intros H. destruct (Nat.lt_ge_cases (length rx) n) as [Hlt|Hge]; [exact Hlt|].
  rewrite <- (take_drop n rx) in H.
  replace n with (length (take n rx)) in H at 1 by (rewrite length_take; lia).
  rewrite keysLoop_app in H. discriminate.
Qed.

(** X1. A call of [uartTask] never returns exactly when the byte it read is
    '4' or '5' and fewer than four bytes follow; in every other case,
    including an idle line, it returns. *)
Theorem uartTask_blocks_iff i rx s :
  uartTask i rx s = None <->
  exists c rest,
    rx = c :: rest /\ (c = "4"%char \/ c = "5"%char) /\ (length rest < 4)%nat.
Proof.
  split.
  - destruct rx as [|c rx]; [discriminate|]. unfold uartTask.
    destruct (Ascii.eqb_spec c "1"); [discriminate|].
    destruct (Ascii.eqb_spec c "2"); [discriminate|].
    destruct (Ascii.eqb_spec c "3"); [discriminate|].
    destruct (Ascii.eqb_spec c "4") as [->|_].
    { unfold codeEntry. intros H.
      destruct (keysLoop _ _ _ _) as [[rx' s1]|] eqn:E.
      - destruct (negb _); discriminate.
      - apply keysLoop_None in E. eauto 6. }
    destruct (Ascii.eqb_spec c "5") as [->|_].
    { unfold newCode. intros H.
      destruct (keysLoop _ _ _ _) as [[rx' s1]|] eqn:E; [discriminate|].
      apply keysLoop_None in E. eauto 6. }
    destruct (_ || _); [discriminate|].
    destruct (_ || _); [discriminate|].
    destruct (_ || _); discriminate.
  - intros (c & rest & -> & [-> | ->] & Hlen).
    + rewrite uartTask_codeEntry. unfold codeEntry.
      rewrite keysLoop_short by exact Hlen. reflexivity.
    + rewrite uartTask_newCode. unfold newCode.
      rewrite keysLoop_short by exact Hlen. reflexivity.
Qed.

Lemma uartTask_status i c rx s :
  c <> "4"%char -> c <> "5"%char ->
  exists pot evs,
    uartTask i (c :: rx) s
    = Some (rx, s<|potentiometerReading := pot|><|events := events s ++ evs|>) /\
    (pot = potentiometerReading s \/
     ((c = "p"%char \/ c = "P"%char) /\ pot = potentiometer i)).
Proof.
  intros H4 H5. unfold uartTask.
  set (s0 := emit (Printf "UART Task initiated.") s).
  assert (Hw : forall buf len,
             uartWrite buf len s0
             = s<|potentiometerReading := potentiometerReading s|>
                <|events := events s ++ [Printf "UART Task initiated."; UartWrite buf len]|>).
  { intros buf len. unfold s0, uartWrite, emit. destruct s; rnorm.
    rewrite <- app_assoc. reflexivity. }
  destruct (Ascii.eqb_spec c "1").
  { split_ifs; rewrite Hw; eauto. }
  destruct (Ascii.eqb_spec c "2").
  { split_ifs; rewrite Hw; eauto. }
  destruct (Ascii.eqb_spec c "3").
  { split_ifs; rewrite Hw; eauto. }
  destruct (Ascii.eqb_spec c "4"); [contradiction|].
  destruct (Ascii.eqb_spec c "5"); [contradiction|].
  destruct (Ascii.eqb_spec c "p") as [->|Hp].
  { cbn [orb]. exists (potentiometer i). eexists. split; [|right; auto].
    unfold s0, uartWrite, emit. destruct s; rnorm.
    rewrite <- app_assoc. reflexivity. }
  destruct (Ascii.eqb_spec c "P") as [->|HP].
  { cbn [orb]. exists (potentiometer i). eexists. split; [|right; auto].
    unfold s0, uartWrite, emit. destruct s; rnorm.
    rewrite <- app_assoc. reflexivity. }
  cbn [orb].
  destruct (_ || _); [rewrite Hw; eauto|].
  destruct (_ || _); [rewrite Hw; eauto|].
  rewrite availableCommands_eq.
  exists (potentiometerReading s), ([Printf "UART Task initiated."] ++ availableCommandsEvents).
  split; [|left; reflexivity].
  unfold s0, emit. destruct s; rnorm. rewrite <- app_assoc. reflexivity.
Qed.

(** X2. Every command byte other than '4' and '5' makes [uartTask] read
    that one byte and return; it leaves the alarm, the counter, the code,
    the LEDs, the blink timer and the temperature as they are, and only the
    potentiometer commands 'p' and 'P' store a new potentiometer reading. *)
Theorem status_commands_change_nothing i c rx s :
  c <> "4"%char -> c <> "5"%char ->
  exists s',
    uartTask i (c :: rx) s = Some (rx, s') /\
    alarmState s' = alarmState s /\
    numberOfIncorrectCodes s' = numberOfIncorrectCodes s /\
    codeSequence s' = codeSequence s /\
    incorrectCodeLed s' = incorrectCodeLed s /\
    systemBlockedLed s' = systemBlockedLed s /\
    alarmLed s' = alarmLed s /\
    accumulatedTimeAlarm s' = accumulatedTimeAlarm s /\
    lm35TempC s' = lm35TempC s /\
    (potentiometerReading s' = potentiometerReading s \/
     ((c = "p"%char \/ c = "P"%char) /\ potentiometerReading s' = potentiometer i)).
Proof.
  intros H4 H5.
  destruct (uartTask_status i c rx s H4 H5) as (pot & evs & Hrun & Hpot).
  eexists. split; [exact Hrun|]. rsimpl. auto 12.
Qed.

Lemma storedDigit_digit c d : isDigit c = true -> storedDigit c d = digitOf c.
Proof.
  unfold isDigit, storedDigit, digitOf.
  destruct (Ascii.eqb c "1"), (Ascii.eqb c "0"); cbn; try discriminate; reflexivity.
Qed.

Lemma keysStored_digits_spec bs code :
  length code = 4%nat -> length bs = 4%nat ->
  Forall (fun c => isDigit c = true) bs ->
  keysStored code 0 bs = map digitOf bs.
Proof.
  intros Hc Hb Hd. rewrite keysStored_spec by assumption.
  destruct code as [|c0 [|c1 [|c2 [|c3 [|]]]]]; try discriminate.
  destruct bs as [|b0 [|b1 [|b2 [|b3 [|]]]]]; try discriminate.
  inversion Hd as [|? ? H0 Hd1]; subst. inversion Hd1 as [|? ? H1 Hd2]; subst.
  inversion Hd2 as [|? ? H2 Hd3]; subst. inversion Hd3 as [|? ? H3 _]; subst.
  cbn [zip_with map].
  rewrite !storedDigit_digit by assumption. reflexivity.
Qed.

(** X3. Set and verify round trip, with no check of the old code or of the
    lockout: in any state, command '5' followed by four digit bytes stores
    exactly those digits as the code and leaves the counter, the alarm and
    the incorrect-code LED alone; command '4' followed by the same four
    bytes is then answered "correct", returns the counter to 0, turns the
    incorrect-code LED off and the alarm off. *)
Theorem new_code_round_trip i i' s bs rest rest' :
  length (codeSequence s) = 4%nat -> length bs = 4%nat ->
  Forall (fun c => isDigit c = true) bs ->
  exists s1 s2,
    uartTask i ("5"%char :: bs ++ rest) s = Some (rest, s1) /\
    codeSequence s1 = map digitOf bs /\
    numberOfIncorrectCodes s1 = numberOfIncorrectCodes s /\
    alarmState s1 = alarmState s /\
    incorrectCodeLed s1 = incorrectCodeLed s /\
    uartTask i' ("4"%char :: bs ++ rest') s1 = Some (rest', s2) /\
    last (events s2) = Some (UartWrite codeCorrectText 25) /\
    numberOfIncorrectCodes s2 = 0 /\ incorrectCodeLed s2 = false /\
    alarmState s2 = false /\ codeSequence s2 = map digitOf bs.
Proof.
  intros Hc Hb Hd.
  rewrite uartTask_newCode, newCode_eq by exact Hb.
  set (s1 := newCodeResult bs (emit (Printf "UART Task initiated.") s)).
  assert (Hcode : codeSequence s1 = map digitOf bs).
  { unfold s1, newCodeResult, emit. rsimpl.
    apply keysStored_digits_spec; assumption. }
  assert (Hc1 : length (codeSequence s1) = 4%nat)
    by (rewrite Hcode, length_map; exact Hb).
  destruct (serial_entry i' bs rest' s1 Hb) as (s2 & Hrun & Hres).
  cbv zeta in Hres.
  assert (Hacc : keysAccepted (codeSequence s1) 0 bs = true).
  { apply (keysAccepted_spec bs s1 Hc1 Hb). split; [exact Hd | symmetry; exact Hcode]. }
  rewrite Hacc in Hres. destruct Hres as (Hev & Ha & Hl & Hn & _).
  assert (Hcode2 : codeSequence s2 = codeSequence s1).
  { rewrite uartTask_codeEntry, codeEntry_eq in Hrun by exact Hb.
    injection Hrun as <-. unfold codeEntryResult.
    destruct (keysAccepted _ _ _); reflexivity. }
  exists s1, s2. split; [reflexivity|]. split; [exact Hcode|].
  split; [reflexivity|]. split; [reflexivity|]. split; [reflexivity|].
  split; [exact Hrun|]. split; [rewrite Hev; apply last_snoc|].
  split; [exact Hn|]. split; [exact Hl|]. split; [exact Ha|].
  rewrite Hcode2. exact Hcode.
Qed.

(** ** Invariants of a running program *)

(** X4. In every state the running program reaches, the secret code has
    four entries, each 0 or 1, and [buttonsPressed] has four entries. *)
Theorem code_keeps_four_binary_digits s :
  reachable s ->
  length (codeSequence s) = 4%nat /\
  Forall (fun d => d = 0 \/ d = 1) (codeSequence s) /\
  length (buttonsPressed s) = 4%nat.
Proof.
  intros H. destruct (reachable_wf s H) as [_ _ Hc Hd Hb _ _ _]. auto.
Qed.

(** X5. While the alarm of a running program is active at least one of the
    two cause flags is latched, so one of the three blinking periods is
    always selected. *)
Theorem active_alarm_has_blinking_time s :
  reachable s -> alarmState s = true ->
  gasDetectorState s || overTempDetectorState s = true /\
  (blinkingTime s = Some 100 \/ blinkingTime s = Some 1000
   \/ blinkingTime s = Some 500).
Proof.
  intros H Hon. destruct (reachable_wf s H) as [_ _ _ _ _ _ _ Hcause].
  specialize (Hcause Hon). split; [exact Hcause|]. unfold blinkingTime.
  destruct (gasDetectorState s), (overTempDetectorState s); cbn in *;
    auto; discriminate.
Qed.

Lemma activation_time i s :
  let s' := alarmActivationUpdate i s in
  accumulatedTimeAlarm s' = 0 \/
  accumulatedTimeAlarm s' = add32 (accumulatedTimeAlarm s) TIME_INCREMENT_MS \/
  accumulatedTimeAlarm s' = accumulatedTimeAlarm s.
Proof.
  cbv zeta. unfold alarmActivationUpdate.
  destruct (sampleTemperature_frame i s) as (_ & _ & _ & _ & Ha & _).
  destruct (detectCauses_frame i (sampleTemperature i s)) as (_ & Ha' & _).
  set (st := detectCauses i (sampleTemperature i s)) in *. clearbody st.
  rewrite <- Ha, <- Ha'. clear Ha Ha'.
  destruct (alarmState st) eqn:Hon.
  - destruct (driveAlarm_cadence st Hon) as (_ & _ & Hc).
    destruct (blinkingTime st) as [period|]; [destruct (period <=? _)|];
      destruct Hc as [Hc _]; auto.
  - destruct (driveAlarm_off_fields st Hon) as (_ & _ & _ & _ & Hc). auto.
Qed.

Lemma iteration_time i rx s s' :
  mainLoopIteration i rx s = Some s' ->
  accumulatedTimeAlarm s' = accumulatedTimeAlarm (alarmActivationUpdate i s).
Proof.
  unfold mainLoopIteration. intros H.
  destruct (uartTask _ _ _) as [[rest s2]|] eqn:E; [|discriminate].
  injection H as <-.
  destruct (uartTask_frame _ _ _ _ _ E) as (-> & _).
  destruct (deactivation_frame i (alarmActivationUpdate i s)) as (-> & _).
  reflexivity.
Qed.

(** X6. In every state the running program reaches, the accumulated blink
    time is a multiple of the 10 ms tick between 0 and 990 ms, so the
    addition of [TIME_INCREMENT_MS] never overflows. *)
Theorem blink_timer_in_range s :
  reachable s ->
  0 <= accumulatedTimeAlarm s <= 990 /\ accumulatedTimeAlarm s mod 10 = 0.
Proof.
  intros H.
  assert (Hmod : accumulatedTimeAlarm s mod 10 = 0).
  { induction H as [|i rx s s' Hs IH Hstep]; [reflexivity|].
    destruct (reachable_wf s Hs) as [_ _ _ _ _ Ht _ _].
    unfold BLINKING_TIME_GAS_ALARM in Ht.
    rewrite (iteration_time _ _ _ _ Hstep).
    destruct (activation_time i s) as [-> | [-> | ->]]; [reflexivity | | exact IH].
    unfold TIME_INCREMENT_MS. rewrite add32_small by lia.
    rewrite <- Z.add_mod_idemp_l, IH by lia. reflexivity. }
  destruct (reachable_wf s H) as [_ _ _ _ _ Ht _ _].
  unfold BLINKING_TIME_GAS_ALARM in Ht.
  split; [|exact Hmod].
  pose proof (Z.div_mod (accumulatedTimeAlarm s) 10) as Hd.
  rewrite Hmod in Hd. lia.
Qed.

(** ** The siren pin *)

Lemma sampleTemperature_siren i s :
  sirenPin (sampleTemperature i s) = sirenPin s /\
  overTempDetector (sampleTemperature i s) = overTempDetector s.
Proof.
  unfold sampleTemperature. rewrite sumReadings_frame.
  destruct s; rsimpl. split_ifs; rsimpl; auto.
Qed.

Lemma driveAlarm_siren s :
  sirenPinDirection (driveAlarm s)
  = (if alarmState s then PinOutput else PinInput) /\
  (sirenPin s = false -> sirenPin (driveAlarm s) = false) /\
  overTempDetector (driveAlarm s) = overTempDetector s /\
  (alarmState s = false ->
   gasDetectorState (driveAlarm s) = false /\
   overTempDetectorState (driveAlarm s) = false).
Proof.
  unfold driveAlarm, blink. destruct s; rsimpl.
  split_ifs; rsimpl; repeat split; intros; auto; discriminate.
Qed.

Lemma deactivation_siren i s :
  sirenPin (alarmDeactivationUpdate i s) = sirenPin s.
Proof.
  destruct (deactivation_cases i s) as [[_ ->]|[(_ & _ & ->)|(_ & _ & ->)]];
    try destruct (areEqual _); reflexivity.
Qed.

Lemma uartTask_siren i rx s rest s' :
  uartTask i rx s = Some (rest, s') -> sirenPin s' = sirenPin s.
Proof.
  intros H.
  destruct (uartTask_cases _ _ _ _ _ H)
    as [(bs & _ & _ & ->)|[(bs & _ & _ & ->)|(pot & evs & -> & _)]];
    unfold codeEntryResult, newCodeResult;
    try destruct (keysAccepted _ _ _); reflexivity.
Qed.

(** X7. [alarmActivationUpdate] leaves the siren pin an output exactly when
    it leaves the alarm active and an input otherwise, and a running
    program never drives the pin high: the only level written is LOW. *)
Theorem siren_never_driven_high :
  (forall i s,
     sirenPinDirection (alarmActivationUpdate i s)
     = if alarmState (alarmActivationUpdate i s) then PinOutput else PinInput) /\
  (forall s, reachable s -> sirenPin s = false).
Proof.
  split.
  - intros i s. unfold alarmActivationUpdate.
    destruct (driveAlarm_frame (detectCauses i (sampleTemperature i s)))
      as (_ & -> & _).
    apply driveAlarm_siren.
  - intros s H. induction H as [|i rx s s' Hs IH Hstep]; [reflexivity|].
    unfold mainLoopIteration in Hstep.
    destruct (uartTask _ _ _) as [[rest s2]|] eqn:E; [|discriminate].
    injection Hstep as <-.
    rewrite (uartTask_siren _ _ _ _ _ E), deactivation_siren.
    unfold alarmActivationUpdate. apply driveAlarm_siren.
    destruct (detectCauses_values i (sampleTemperature i s)) as (_ & _ & _ & _ & ->).
    destruct (sampleTemperature_siren i s) as [-> _]. exact IH.
Qed.

(** ** The causes of the alarm *)

(** X8. After [alarmActivationUpdate] the over-temperature detector says
    whether the temperature just computed exceeds 50 degrees; the alarm is
    active iff it was active before or gas is present (the sensor reads
    low), the detector is on, or the test button is pressed - whatever the
    state of the code lock.  While the alarm is active the gas flag latches
    gas or the test button, the over-temperature flag latches the detector
    or the test button, and neither flag is ever cleared; when the alarm is
    inactive both flags are cleared. *)
Theorem alarm_activation_causes i s :
  let s' := alarmActivationUpdate i s in
  overTempDetector s' = f_gt (lm35TempC s') (f_of_int 50) /\
  alarmState s'
  = alarmState s || negb (mq2 i) || overTempDetector s' || alarmTestButton i /\
  (alarmState s' = true ->
   gasDetectorState s' = gasDetectorState s || negb (mq2 i) || alarmTestButton i /\
   overTempDetectorState s'
   = overTempDetectorState s || overTempDetector s' || alarmTestButton i) /\
  (alarmState s' = false ->
   gasDetectorState s' = false /\ overTempDetectorState s' = false).
Proof.
  cbv zeta. unfold alarmActivationUpdate.
  destruct (sampleTemperature_frame i s) as (_ & Ha & Hg & Ho & _).
  set (st := sampleTemperature i s) in *. clearbody st.
  destruct (detectCauses_values i st) as (Hhot & Hgas & Hot & Hon & _).
  cbv zeta in Hhot, Hot, Hon.
  destruct (detectCauses_temperature i st) as (_ & _ & _ & Ht).
  set (sc := detectCauses i st) in *. clearbody sc.
  destruct (driveAlarm_frame sc) as (_ & Ha' & _ & _ & _ & Ht').
  destruct (driveAlarm_siren sc) as (_ & _ & Hd & Hoff).
  rewrite Ha', Hd, Ht', Ht.
  split; [exact Hhot|]. split; [rewrite Hon, Ha, Hhot; reflexivity|]. split.
  - intros Hact.
    destruct (driveAlarm_cadence sc Hact) as (-> & -> & _).
    rewrite Hgas, Hot, Hg, Ho, Hhot. auto.
  - intros Hact. apply Hoff. exact Hact.
Qed.

(** ** The counter and the lockout *)

Lemma quiet_no_match evs : Forall isQuiet evs -> ~ Exists reportsMatch evs.
Proof.
  intros Hq Hm. apply Exists_exists in Hm as (e & Hin & Hm).
  rewrite Forall_forall in Hq. destruct (Hq e Hin) as [Hk Hs].
  destruct Hm as [-> | ->]; [apply Hk; eexists; reflexivity | apply Hs; left; reflexivity].
Qed.

Lemma add32_above n : n < INT_MAX -> n < add32 n 1.
Proof.
  intros H. unfold INT_MAX in H.
  destruct (Z.lt_ge_cases n (- 2 ^ 31)) as [Hlow|Hlow].
  - pose proof (wrap32_range (n + 1)). unfold add32. lia.
  - rewrite add32_small by lia. lia.
Qed.

Lemma add32_twice_above n : n < INT_MAX - 1 -> n < add32 (add32 n 1) 1.
Proof.
  intros H. unfold INT_MAX in H.
  destruct (Z.lt_ge_cases n (- 2 ^ 31)) as [Hlow|Hlow].
  - pose proof (wrap32_range (add32 n 1 + 1)). unfold add32 at 1. lia.
  - rewrite (add32_small n) by lia. rewrite add32_small by lia. lia.
Qed.

(** X9. Over one pass of the loop the counter of wrong codes either takes
    zero, one or two 32-bit increments, one for each code path, or a
    successful code verification is reported during the pass and the counter
    ends at 0, or at 1 when a wrong serial code followed a keypad match.  So
    the counter goes down only when a match is reported during the pass, or
    when an increment wraps at the top of the 32-bit range. *)
Theorem counter_drops_only_on_match i rx s s' :
  mainLoopIteration i rx s = Some s' ->
  let n := numberOfIncorrectCodes s in
  let n' := numberOfIncorrectCodes s' in
  exists evs,
    events s' = events s ++ evs /\
    (n' = n \/ n' = add32 n 1 \/ n' = add32 (add32 n 1) 1
     \/ (Exists reportsMatch evs /\ (n' = 0 \/ n' = 1))) /\
    (n' < n -> Exists reportsMatch evs \/ INT_MAX - 1 <= n).
Proof.
  unfold mainLoopIteration. intros H. cbv zeta.
  destruct (uartTask _ _ _) as [[rest s2]|] eqn:E; [|discriminate].
  injection H as <-.
  destruct (activation_sameLock i s) as (Hn1 & _ & _ & _ & _ & Hev).
  set (s1 := alarmActivationUpdate i s) in *. clearbody s1.
  rewrite <- Hn1, <- Hev. clear Hn1 Hev.
  assert (Hmain : exists evs,
             events s2 = events s1 ++ evs /\
             (numberOfIncorrectCodes s2 = numberOfIncorrectCodes s1
              \/ numberOfIncorrectCodes s2 = add32 (numberOfIncorrectCodes s1) 1
              \/ numberOfIncorrectCodes s2
                 = add32 (add32 (numberOfIncorrectCodes s1) 1) 1
              \/ (Exists reportsMatch evs /\
                  (numberOfIncorrectCodes s2 = 0 \/ numberOfIncorrectCodes s2 = 1)))).
  { pose proof (deactivation_summary i s1) as Hd. cbv zeta in Hd.
    destruct Hd
      as [(Hev & _ & Hn2 & _)|(_ & _ & _ & [(Hev & _ & _ & Hn2)|(Hev & _ & _ & Hn2)])];
      destruct (uartTask_summary _ _ _ _ _ E)
        as (evs & -> & [(_ & _ & _ & ->)|[(q & -> & _ & _ & _ & ->)|(q & -> & _ & _ & _ & ->)]]);
      rewrite Hev, ?Hn2, <- ?app_assoc;
      (eexists; split; [reflexivity|]);
      first [ left; reflexivity
            | right; left; reflexivity
            | right; right; left; reflexivity
            | right; right; right; split;
              [ first [ apply Exists_app; right; constructor; right; reflexivity
                      | constructor; left; reflexivity
                      | apply Exists_cons_tl, Exists_app; right; constructor; right;
                        reflexivity ]
              | first [ left; reflexivity | right; reflexivity ] ] ]. }
  destruct Hmain as (evs & Hev & Hd). exists evs.
  split; [exact Hev|]. split; [exact Hd|].
  intros Hlt. destruct Hd as [Hd|[Hd|[Hd|[Hm _]]]].
  - lia.
  - destruct (Z.lt_ge_cases (numberOfIncorrectCodes s1) (INT_MAX - 1)) as [Hb|Hb];
      [|right; exact Hb].
    pose proof (add32_above (numberOfIncorrectCodes s1)). lia.
  - destruct (Z.lt_ge_cases (numberOfIncorrectCodes s1) (INT_MAX - 1)) as [Hb|Hb];
      [|right; exact Hb].
    pose proof (add32_twice_above (numberOfIncorrectCodes s1) Hb). lia.
  - left. exact Hm.
Qed.

Lemma iteration_locked i rx s s' :
  5 <= numberOfIncorrectCodes s -> head rx <> Some "4"%char ->
  mainLoopIteration i rx s = Some s' ->
  numberOfIncorrectCodes s' = numberOfIncorrectCodes s /\
  (alarmState s = true -> alarmState s' = true) /\
  exists evs, events s' = events s ++ evs /\ Forall isQuiet evs.
Proof.
  unfold mainLoopIteration. intros Hn Hrx H.
  destruct (uartTask _ _ _) as [[rest s2]|] eqn:E; [|discriminate].
  injection H as <-.
  destruct (activation_sameLock i s) as (Hn1 & _ & _ & _ & _ & Hev).
  pose proof (activation_sticky i s) as Hon.
  set (s1 := alarmActivationUpdate i s) in *. clearbody s1.
  rewrite lockout_blocks_keypad in E by (rewrite Hn1; exact Hn).
  rewrite <- Hn1, <- Hev. clear Hn1 Hev Hn.
  destruct (uartTask_cases _ _ _ _ _ E)
    as [(bs & -> & _)|[(bs & _ & _ & ->)|(pot & evs & -> & Hq)]].
  - exfalso. apply Hrx. reflexivity.
  - split; [reflexivity|]. split; [exact Hon|].
    exists ([Printf "UART Task initiated."] ++ newCodePromptEvents
            ++ replicate 4 echo
            ++ [UartWrite (CRLF +:+ "New code generated" +:+ CRLF +:+ CRLF) 24]).
    split; [unfold newCodeResult; rsimpl; rewrite <- !app_assoc; reflexivity|].
    constructor; [apply isQuiet_printf | apply newCodeEvents_quiet].
  - split; [reflexivity|]. split; [exact Hon|].
    exists ([Printf "UART Task initiated."] ++ evs).
    split; [rsimpl; rewrite <- !app_assoc; reflexivity|].
    constructor; [apply isQuiet_printf|].
    eapply Forall_impl; [exact Hq | apply isQuiet_status].
Qed.

(** X10. Without command '4' the lockout is final: over every run that
    starts with the counter at 5 or more and never receives command '4',
    the counter keeps its value, no code is evaluated on either path, and
    an active alarm stays active. *)
Theorem keypad_lockout_is_terminal script s s' :
  5 <= numberOfIncorrectCodes s -> mainLoop script s = Some s' ->
  Forall (fun tick => head (snd tick) <> Some "4"%char) script ->
  numberOfIncorrectCodes s' = numberOfIncorrectCodes s /\
  (alarmState s = true -> alarmState s' = true) /\
  exists evs, events s' = events s ++ evs /\ Forall isQuiet evs.
Proof.
  revert s. induction script as [|[i rx] script IH]; intros s Hn H Hq.
  - injection H as <-. split; [reflexivity|]. split; [auto|].
    exists []. rewrite app_nil_r. split; [reflexivity | constructor].
  - cbn [mainLoop] in H.
    destruct (mainLoopIteration i rx s) as [s1|] eqn:E; [|discriminate].
    inversion Hq as [|? ? Hrx Hq']; subst. cbn [snd] in Hrx.
    destruct (iteration_locked _ _ _ _ Hn Hrx E) as (Hn1 & Ha1 & evs1 & Hev1 & Hq1).
    destruct (IH s1) as (Hn2 & Ha2 & evs2 & Hev2 & Hq2);
      [rewrite Hn1; exact Hn | exact H | exact Hq' |].
    split; [congruence|]. split; [auto|].
    exists (evs1 ++ evs2). rewrite Hev2, Hev1, <- app_assoc.
    split; [reflexivity | apply Forall_app; auto].
Qed.

(** ** The sample buffer over a run *)

Lemma iteration_buffer i rx s s' :
  length (lm35ReadingsArray s) = 100%nat -> 0 <= lm35SampleIndex s < 100 ->
  mainLoopIteration i rx s = Some s' ->
  lm35ReadingsArray s'
  = <[Z.to_nat (lm35SampleIndex s) := lm35 i]> (lm35ReadingsArray s) /\
  lm35SampleIndex s' = (lm35SampleIndex s + 1) mod 100.
Proof.
  unfold mainLoopIteration. intros Hlen Hidx H.
  destruct (uartTask _ _ _) as [[rest s2]|] eqn:E; [|discriminate].
  injection H as <-.
  assert (Hs : lm35ReadingsArray (alarmActivationUpdate i s)
               = <[Z.to_nat (lm35SampleIndex s) := lm35 i]> (lm35ReadingsArray s) /\
               lm35SampleIndex (alarmActivationUpdate i s)
               = (lm35SampleIndex s + 1) mod 100).
  { unfold alarmActivationUpdate.
    destruct (driveAlarm_frame (detectCauses i (sampleTemperature i s)))
      as (_ & _ & -> & -> & _).
    destruct (detectCauses_temperature i (sampleTemperature i s)) as (-> & -> & _).
    rewrite sampleTemperature_eq by (unfold_defines; auto).
    cbv zeta. unfold arrayWrite. destruct s; rsimpl. auto. }
  set (s1 := alarmActivationUpdate i s) in *. clearbody s1.
  destruct Hs as [<- <-].
  assert (Hd : lm35ReadingsArray (alarmDeactivationUpdate i s1) = lm35ReadingsArray s1 /\
               lm35SampleIndex (alarmDeactivationUpdate i s1) = lm35SampleIndex s1).
  { destruct (deactivation_cases i s1) as [[_ ->]|[(_ & _ & ->)|(_ & _ & ->)]];
      try destruct (areEqual _); rsimpl; auto. }
  destruct Hd as [<- <-].
  destruct (uartTask_cases _ _ _ _ _ E)
    as [(bs & _ & _ & ->)|[(bs & _ & _ & ->)|(pot & evs & -> & _)]];
    unfold codeEntryResult, newCodeResult;
    try destruct (keysAccepted _ _ _); rsimpl; auto.
Qed.

Lemma slot_shift idx k :
  ((idx + 1) mod 100 + Z.of_nat k) mod 100 = (idx + Z.of_nat (S k)) mod 100.
Proof.
  rewrite Z.add_mod_idemp_l by lia. f_equal. lia.
Qed.

Lemma mainLoop_buffer script : forall s s',
  length (lm35ReadingsArray s) = 100%nat -> 0 <= lm35SampleIndex s < 100 ->
  (length script <= 100)%nat ->
  mainLoop script s = Some s' ->
  lm35SampleIndex s' = (lm35SampleIndex s + Z.of_nat (length script)) mod 100 /\
  length (lm35ReadingsArray s') = 100%nat /\
  (forall k tick, script !! k = Some tick ->
     lm35ReadingsArray s' !! Z.to_nat ((lm35SampleIndex s + Z.of_nat k) mod 100)
     = Some (lm35 (fst tick))) /\
  (forall p, (forall k, (k < length script)%nat ->
                p <> Z.to_nat ((lm35SampleIndex s + Z.of_nat k) mod 100)) ->
     lm35ReadingsArray s' !! p = lm35ReadingsArray s !! p).
Proof.
  induction script as [|[i rx] script IH]; intros s s' Hlen Hidx Hn H.
  - injection H as <-. cbn [length]. rewrite Z.add_0_r, Z.mod_small by lia.
    split; [reflexivity|]. split; [exact Hlen|]. split; [|reflexivity].
    intros k tick Hk. destruct k; discriminate Hk.
  - cbn [mainLoop] in H. cbn [length] in Hn.
    destruct (mainLoopIteration i rx s) as [s1|] eqn:E; [|discriminate].
    destruct (iteration_buffer _ _ _ _ Hlen Hidx E) as [Harr Hi].
    assert (Hlen1 : length (lm35ReadingsArray s1) = 100%nat).
    { rewrite Harr. etransitivity; [apply length_insert | exact Hlen]. }
    assert (Hidx1 : 0 <= lm35SampleIndex s1 < 100).
    { rewrite Hi. apply Z.mod_pos_bound. lia. }
    destruct (IH s1 s' Hlen1 Hidx1 ltac:(lia) H) as (Hi' & Hlen' & Hnew & Hold).
    rewrite Hi in Hi', Hnew, Hold.
    split; [rewrite Hi'; apply slot_shift|]. split; [exact Hlen'|]. split.
    + intros [|k] tick Hk.
      * injection Hk as <-. cbn [fst]. rewrite Z.add_0_r, Z.mod_small by lia.
        rewrite Hold.
        { rewrite Harr. apply list_lookup_insert_eq. lia. }
        intros k Hk Heq. apply Z2Nat.inj in Heq; [| lia | apply Z.mod_pos_bound; lia].
        revert Heq. rewrite slot_shift.
        assert (Hr : Z.of_nat (S k) = Z.of_nat k + 1) by lia. rewrite Hr.
        clear - Hidx Hk Hn.
        intros Heq.
        pose proof (Z.div_mod (lm35SampleIndex s + (Z.of_nat k + 1)) 100 ltac:(lia)) as Hdm.
        rewrite <- Heq in Hdm.
        generalize dependent ((lm35SampleIndex s + (Z.of_nat k + 1)) / 100).
        intros q Hdm. lia.
      * rewrite <- slot_shift. apply Hnew. exact Hk.
    + intros p Hp. rewrite Hold.
      * rewrite Harr. apply list_lookup_insert_ne.
        specialize (Hp 0%nat ltac:(cbn [length]; lia)).
        rewrite Z.add_0_r, Z.mod_small in Hp by lia. auto.
      * intros k Hk. rewrite slot_shift. apply Hp. cbn [length]. lia.
Qed.

(** X11. The sample buffer holds the most recent readings: over a run of at
    most 100 passes the cursor advances by the number of passes modulo 100
    and the reading of the k-th pass sits k slots after the starting cursor,
    wrapping around at 100. *)
Theorem buffer_holds_latest_samples script s s' :
  length (lm35ReadingsArray s) = 100%nat -> 0 <= lm35SampleIndex s < 100 ->
  (length script <= 100)%nat ->
  mainLoop script s = Some s' ->
  lm35SampleIndex s' = (lm35SampleIndex s + Z.of_nat (length script)) mod 100 /\
  forall k tick, script !! k = Some tick ->
    lm35ReadingsArray s' !! Z.to_nat ((lm35SampleIndex s + Z.of_nat k) mod 100)
    = Some (lm35 (fst tick)).
Proof.
  intros Hlen Hidx Hn H.
  destruct (mainLoop_buffer script s s' Hlen Hidx Hn H) as (Hi & _ & Hnew & _).
  auto.
Qed.

(** ** The lengths passed to the serial port *)

Local Ltac whole_text :=
  first [ left; vm_compute; first [exact I | reflexivity]
        | right; left; reflexivity
        | right; right; eexists; reflexivity ].

Local Ltac whole_texts :=
  repeat (apply Forall_cons_2; [whole_text|]); apply Forall_nil_2.

(** X12. Every call of [uartUsb.write] made by [uartTask] passes the length
    of its text, with two exceptions: the answer that gas is being detected
    is written with length 22 although its text has 23 bytes, and the three
    formatted reports are written with length 100. *)
Theorem uart_write_lengths i rx s rest s' :
  uartTask i rx s = Some (rest, s') ->
  String.length ("Gas is being detected" +:+ CRLF) = 23%nat /\
  exists evs,
    events s' = events s ++ evs /\
    Forall (fun e => writesWholeText e
                     \/ e = UartWrite ("Gas is being detected" +:+ CRLF) 22
                     \/ exists buf, e = UartWrite buf 100) evs.
Proof.
  intros H. split; [reflexivity|]. unfold uartTask in H.
  set (s0 := emit (Printf "UART Task initiated.") s) in H.
  assert (Hw : forall buf len st,
             st = s0 \/ st = s0<|potentiometerReading := potentiometer i|> ->
             events (uartWrite buf len st)
             = events s ++ [Printf "UART Task initiated."; UartWrite buf len]).
  { intros buf len st [-> | ->]; unfold s0, uartWrite, emit; destruct s; rnorm;
      rewrite <- app_assoc; reflexivity. }
  destruct rx as [|c rx].
  { injection H as _ <-. exists [Printf "UART Task initiated."].
    split; [reflexivity | whole_texts]. }
  destruct (Ascii.eqb c "1").
  { injection H as _ <-.
    match goal with |- context [if ?b then _ else _] => destruct b end;
      (eexists; split; [apply Hw; auto | whole_texts]). }
  destruct (Ascii.eqb c "2").
  { injection H as _ <-.
    match goal with |- context [if ?b then _ else _] => destruct b end;
      (eexists; split; [apply Hw; auto | whole_texts]). }
  destruct (Ascii.eqb c "3").
  { injection H as _ <-.
    match goal with |- context [if ?b then _ else _] => destruct b end;
      (eexists; split; [apply Hw; auto | whole_texts]). }
  destruct (Ascii.eqb c "4").
  { destruct (codeEntry_Some _ _ _ _ H) as (bs & _ & _ & ->).
    unfold codeEntryResult.
    destruct (keysAccepted _ _ _);
      [exists ([Printf "UART Task initiated."] ++ codeEntryPromptEvents
               ++ replicate 4 echo ++ [UartWrite codeCorrectText 25])
      |exists ([Printf "UART Task initiated."] ++ codeEntryPromptEvents
               ++ replicate 4 echo ++ [UartWrite codeIncorrectText 27])];
      (split; [unfold s0, emit; destruct s; rnorm; rewrite <- !app_assoc; reflexivity|]);
      vm_compute app; whole_texts. }
  destruct (Ascii.eqb c "5").
  { destruct (newCode_Some _ _ _ _ H) as (bs & _ & _ & ->).
    unfold newCodeResult.
    exists ([Printf "UART Task initiated."] ++ newCodePromptEvents
            ++ replicate 4 echo
            ++ [UartWrite (CRLF +:+ "New code generated" +:+ CRLF +:+ CRLF) 24]).
    split; [unfold s0, emit; destruct s; rnorm; rewrite <- !app_assoc; reflexivity|].
    vm_compute app; whole_texts. }
  destruct (_ || _).
  { injection H as _ <-. eexists; split; [apply Hw; auto | whole_texts]. }
  destruct (_ || _).
  { injection H as _ <-. eexists; split; [apply Hw; auto | whole_texts]. }
  destruct (_ || _).
  { injection H as _ <-. eexists; split; [apply Hw; auto | whole_texts]. }
  injection H as _ <-. rewrite availableCommands_eq.
  exists ([Printf "UART Task initiated."] ++ availableCommandsEvents).
  split; [unfold s0, emit; destruct s; rnorm; rewrite <- app_assoc; reflexivity|].
  vm_compute app; whole_texts.
Qed.

End Coverage.

(** * The program run on concrete inputs *)

(** C1. What the program does at the lockout threshold on the serial path:
    after five wrong codes sent with command '4' the counter is 5 and the
    alarm is active; a sixth command '4' with the right code is still
    evaluated: it answers "correct", returns the counter to 0 and turns the
    alarm off, while the system-blocked LED has been turned on. *)
Theorem lockout_bypassed_by_serial_entry :
  after fiveWrongEntries (fun s => (numberOfIncorrectCodes s, alarmState s))
  = Some (5, true) /\
  after (fiveWrongEntries ++ [(quiet, bytes "41100")])
        (fun s => (systemBlockedLed s, last (events s),
                   numberOfIncorrectCodes s, alarmState s))
  = Some (true, Some (UartWrite codeCorrectText 25), 0, false).
Proof. split; vm_compute; reflexivity. Qed.

(** C3 fails as stated: with the incorrect-code LED on, a tick with the four
    keys and Enter all released leaves the LED on, and the right code
    entered on the keypad on the next tick is not compared. *)
Lemma latch_not_released_by_idle_keypad :
  after wrongKeypadCode (fun s => (alarmState s, incorrectCodeLed s))
  = Some (true, true) /\
  after thenReleased incorrectCodeLed = Some true /\
  after thenRightCode alarmState = Some true /\
  after thenRightCode events
  = after thenReleased (fun s => events s ++ [Printf "UART Task initiated."]).
Proof. split; [|split; [|split]]; vm_compute; reflexivity. Qed.

(** The two reads of Enter in [alarmDeactivationUpdate]: with the LED on
    after a wrong code, a pass in which the four keys are held and Enter
    goes down between the tests of lines 303 and 306 turns the LED off and
    compares the keys in the same call; the wrong code 1111 is counted. *)
Lemma enter_between_reads_is_compared :
  after wrongKeypadCode (fun s => (incorrectCodeLed s, numberOfIncorrectCodes s))
  = Some (true, 1) /\
  after (wrongKeypadCode ++ [(enterBetweenReads, [])])
        (fun s => (incorrectCodeLed s, numberOfIncorrectCodes s))
  = Some (true, 2) /\
  after (wrongKeypadCode ++ [(enterBetweenReads, [])]) events
  = after wrongKeypadCode
          (fun s => events s ++ [AreEqual false; Printf "UART Task initiated."]).
Proof. split; [|split]; vm_compute; reflexivity. Qed.

(** C4 fails as stated: the accumulator holds 20 ms when the keypad turns
    the alarm off, still holds 20 ms after a tick with the alarm inactive,
    and the next activation continues from it. *)
Lemma accumulator_not_zeroed_on_deactivation :
  after alarmRaised (fun s => (alarmState s, accumulatedTimeAlarm s))
  = Some (true, 10) /\
  after thenTurnedOff (fun s => (alarmState s, accumulatedTimeAlarm s))
  = Some (false, 20) /\
  after thenAtRest (fun s => (alarmState s, alarmLed s, accumulatedTimeAlarm s))
  = Some (false, false, 20) /\
  after thenRaisedAgain (fun s => (alarmState s, accumulatedTimeAlarm s))
  = Some (true, 30).
Proof. split; [|split; [|split]]; vm_compute; reflexivity. Qed.
(** * The theorems at concrete inputs *)

Lemma temperature_filter_witness :
  reachable init /\
  length (lm35ReadingsArray init) = 100%nat /\
  0 <= lm35SampleIndex init < 100 /\
  lm35SampleIndex (alarmActivationUpdate quiet init)
  = (lm35SampleIndex init + 1) mod 100 /\
  lm35ReadingsAverage (alarmActivationUpdate quiet init)
  = arithmeticMean (lm35ReadingsArray (alarmActivationUpdate quiet init)).
Proof.
  assert (Hl : length (lm35ReadingsArray init) = 100%nat) by reflexivity.
  assert (Hi : 0 <= lm35SampleIndex init < 100) by (cbn; lia).
  destruct (temperature_filter (FA := QFloat)) as [Hreach Hstep].
  destruct (Hstep quiet init Hl Hi) as (_ & _ & Hidx & _ & Havg & _).
  destruct (Hreach init reachable_init) as [_ _].
  split; [apply reachable_init|]. split; [exact Hl|]. split; [exact Hi|].
  split; [exact Hidx | exact Havg].
Defined.

Lemma blink_cadence_witness :
  alarmState (detectCauses gasPresent (sampleTemperature gasPresent blinkDue))
  = true /\
  gasDetectorState (detectCauses gasPresent (sampleTemperature gasPresent blinkDue))
  = true /\
  overTempDetectorState
    (detectCauses gasPresent (sampleTemperature gasPresent blinkDue))
  = false /\
  alarmState (alarmActivationUpdate gasPresent blinkDue) = true /\
  accumulatedTimeAlarm (alarmActivationUpdate gasPresent blinkDue) = 0 /\
  alarmLed (alarmActivationUpdate gasPresent blinkDue) = negb (alarmLed blinkDue) /\
  alarmState (detectCauses gasPresent (sampleTemperature gasPresent init)) = true /\
  accumulatedTimeAlarm (alarmActivationUpdate gasPresent init) = 10 /\
  alarmLed (alarmActivationUpdate gasPresent init) = alarmLed init.
Proof.
  pose proof (blink_cadence gasPresent blinkDue) as Hdue. cbv zeta in Hdue.
  destruct Hdue as (_ & Hdue & _).
  assert (Ha : alarmState
                 (detectCauses gasPresent (sampleTemperature gasPresent blinkDue))
               = true) by (vm_compute; reflexivity).
  assert (Hg : gasDetectorState
                 (detectCauses gasPresent (sampleTemperature gasPresent blinkDue))
               = true) by (vm_compute; reflexivity).
  assert (Ho : overTempDetectorState
                 (detectCauses gasPresent (sampleTemperature gasPresent blinkDue))
               = false) by (vm_compute; reflexivity).
  destruct (Hdue Ha) as (Hact & _ & _ & _ & Hgas & _).
  specialize (Hgas Hg Ho).
  change (1000 <=? add32 (accumulatedTimeAlarm blinkDue) 10) with true in Hgas.
  destruct Hgas as [Ht Hl].
  pose proof (blink_cadence gasPresent init) as Hfirst. cbv zeta in Hfirst.
  destruct Hfirst as (_ & Hfirst & _).
  assert (Ha' : alarmState
                  (detectCauses gasPresent (sampleTemperature gasPresent init))
                = true) by (vm_compute; reflexivity).
  assert (Hg' : gasDetectorState
                  (detectCauses gasPresent (sampleTemperature gasPresent init))
                = true) by (vm_compute; reflexivity).
  assert (Ho' : overTempDetectorState
                  (detectCauses gasPresent (sampleTemperature gasPresent init))
                = false) by (vm_compute; reflexivity).
  destruct (Hfirst Ha') as (_ & _ & _ & _ & Hgas' & _).
  specialize (Hgas' Hg' Ho').
  change (1000 <=? add32 (accumulatedTimeAlarm init) 10) with false in Hgas'.
  destruct Hgas' as [Ht' Hl'].
  split; [exact Ha|]. split; [exact Hg|]. split; [exact Ho|].
  split; [exact Hact|]. split; [exact Ht|]. split; [exact Hl|].
  split; [exact Ha'|]. split; [rewrite Ht'; reflexivity | exact Hl'].
Defined.

Lemma blink_timer_kept_on_deactivation_witness :
  uartTask quiet [] init = Some ([], emit (Printf "UART Task initiated.") init) /\
  alarmState (alarmActivationUpdate quiet init) = false /\
  accumulatedTimeAlarm (alarmActivationUpdate quiet init)
  = accumulatedTimeAlarm init /\
  alarmState init = false /\
  alarmState (alarmActivationUpdate gasPresent init) = true /\
  exists period,
    blinkingTime (alarmActivationUpdate gasPresent init) = Some period /\
    accumulatedTimeAlarm (alarmActivationUpdate gasPresent init)
    = if period <=? add32 (accumulatedTimeAlarm init) 10
      then 0 else add32 (accumulatedTimeAlarm init) 10.
Proof.
  destruct (blink_timer_kept_on_deactivation (FA := QFloat))
    as (_ & Huart & Hoff & Hon).
  assert (H1 : uartTask quiet [] init
               = Some ([], emit (Printf "UART Task initiated.") init))
    by reflexivity.
  destruct (Huart _ _ _ _ _ H1) as [_ _].
  assert (H2 : alarmState (alarmActivationUpdate quiet init) = false)
    by (vm_compute; reflexivity).
  destruct (Hoff quiet init H2) as (_ & _ & _ & _ & Hacc).
  assert (H3 : alarmState init = false) by reflexivity.
  assert (H4 : alarmState (alarmActivationUpdate gasPresent init) = true)
    by (vm_compute; reflexivity).
  split; [exact H1|]. split; [exact H2|]. split; [exact Hacc|].
  split; [exact H3|]. split; [exact H4|].
  exact (Hon gasPresent init H3 H4).
Defined.

Lemma sticky_activation_witness :
  alarmState gasAlarm = true /\
  mainLoop [(quiet, [])] gasAlarm = Some (pass quiet gasAlarm) /\
  Forall (fun tick => enterButton (fst tick) = false /\
                      head (snd tick) <> Some "4"%char) [(quiet, [])] /\
  alarmState (pass quiet gasAlarm) = true /\
  exists evs,
    events (pass quiet gasAlarm) = events gasAlarm ++ evs /\
    (alarmState (pass quiet gasAlarm) = true \/ Exists reportsMatch evs).
Proof.
  destruct (sticky_activation (FA := QFloat)) as [Hmatch Hquiet].
  assert (Hon : alarmState gasAlarm = true) by (vm_compute; reflexivity).
  assert (Hrun : mainLoop [(quiet, [])] gasAlarm = Some (pass quiet gasAlarm))
    by reflexivity.
  assert (Hq : Forall (fun tick => enterButton (fst tick) = false /\
                                   head (snd tick) <> Some "4"%char)
                      [(quiet, [])])
    by (constructor; [split; [reflexivity | discriminate] | constructor]).
  split; [exact Hon|]. split; [exact Hrun|]. split; [exact Hq|].
  split; [exact (Hquiet _ _ _ Hon Hrun Hq) | exact (Hmatch _ _ _ Hon Hrun)].
Defined.

Lemma system_blocked_led_permanent_witness :
  5 <= numberOfIncorrectCodes atThreshold /\
  systemBlockedLed (alarmDeactivationUpdate quiet atThreshold) = true /\
  mainLoopIteration quiet [] atThreshold = Some (pass quiet atThreshold) /\
  systemBlockedLed atThreshold = false /\
  systemBlockedLed (pass quiet atThreshold) = true /\
  mainLoop [(quiet, [])] (pass quiet atThreshold)
  = Some (pass quiet (pass quiet atThreshold)) /\
  systemBlockedLed (pass quiet (pass quiet atThreshold)) = true.
Proof.
  destruct (system_blocked_led_permanent (FA := QFloat)) as (Hset & Honly & Hkeep).
  assert (Hn : 5 <= numberOfIncorrectCodes atThreshold) by (vm_compute; discriminate).
  assert (Hrun : mainLoopIteration quiet [] atThreshold
                 = Some (pass quiet atThreshold)) by reflexivity.
  assert (Hoff : systemBlockedLed atThreshold = false) by reflexivity.
  assert (Hon : systemBlockedLed (pass quiet atThreshold) = true)
    by (vm_compute; reflexivity).
  assert (Hrun' : mainLoop [(quiet, [])] (pass quiet atThreshold)
                  = Some (pass quiet (pass quiet atThreshold))) by reflexivity.
  pose proof (Honly _ _ _ _ Hrun Hoff Hon) as _.
  split; [exact Hn|]. split; [exact (Hset quiet atThreshold Hn)|].
  split; [exact Hrun|]. split; [exact Hoff|]. split; [exact Hon|].
  split; [exact Hrun' | exact (Hkeep _ _ _ Hon Hrun')].
Defined.

Lemma keypad_latch_gate_witness :
  incorrectCodeLed ledOn = true /\
  events (alarmDeactivationUpdate quiet ledOn) = events ledOn /\
  incorrectCodeLed (alarmDeactivationUpdate quiet ledOn) = true /\
  incorrectCodeLed latched = true /\
  incorrectCodeLed
    (alarmDeactivationUpdate (keys true true true true false) latched) = false /\
  events (alarmDeactivationUpdate (keys true true true true false) latched)
  = events latched /\
  (exists r,
     events (alarmDeactivationUpdate enterBetweenReads latched)
     = events latched ++ [AreEqual r] /\
     incorrectCodeLed (alarmDeactivationUpdate enterBetweenReads latched)
     = negb r) /\
  mainLoop [(quiet, [])] ledOn = Some (pass quiet ledOn) /\
  (exists evs,
     events (pass quiet ledOn) = events ledOn ++ evs /\
     (Exists (fun e => e = UartWrite codeCorrectText 25) evs
      \/ (incorrectCodeLed (pass quiet ledOn) = true /\
          Forall (fun e => ~ isKeypadEvaluation e) evs))) /\
  incorrectCodeLed gasAlarm = false /\ numberOfIncorrectCodes gasAlarm < 5 /\
  alarmState gasAlarm = true /\
  exists r,
    events (alarmDeactivationUpdate (keys true true false false true) gasAlarm)
    = events gasAlarm ++ [AreEqual r].
Proof.
  destruct (keypad_latch_gate (FA := QFloat)) as (Hgate & Hrun & Hopen).
  assert (Hled : incorrectCodeLed ledOn = true) by reflexivity.
  assert (Hlatched : incorrectCodeLed latched = true) by reflexivity.
  assert (Hpass : mainLoop [(quiet, [])] ledOn = Some (pass quiet ledOn))
    by reflexivity.
  assert (Hq : Forall (fun tick =>
                         aButtonLatch (fst tick) && bButtonLatch (fst tick)
                         && cButtonLatch (fst tick) && dButtonLatch (fst tick)
                         && negb (enterButtonLatch (fst tick)) = false)
                      [(quiet, @nil ascii)])
    by (constructor; [reflexivity | constructor]).
  assert (Hoff : incorrectCodeLed gasAlarm = false) by (vm_compute; reflexivity).
  assert (Hn : numberOfIncorrectCodes gasAlarm < 5) by (vm_compute; reflexivity).
  assert (Hon : alarmState gasAlarm = true) by (vm_compute; reflexivity).
  pose proof (Hgate quiet ledOn Hled) as Hg. cbv zeta in Hg.
  destruct Hg as (Hkept & _ & _).
  assert (Hno : (numberOfIncorrectCodes ledOn <? 5)
                && (aButtonLatch quiet && bButtonLatch quiet && cButtonLatch quiet
                    && dButtonLatch quiet && negb (enterButtonLatch quiet))
                = false) by (vm_compute; reflexivity).
  destruct (Hkept Hno) as (Hev & _ & _ & Hstill).
  pose proof (Hgate (keys true true true true false) latched Hlatched) as Hh.
  cbv zeta in Hh. destruct Hh as (_ & Hheld & _).
  assert (Hrel : (numberOfIncorrectCodes latched <? 5)
                 && (aButtonLatch (keys true true true true false)
                     && bButtonLatch (keys true true true true false)
                     && cButtonLatch (keys true true true true false)
                     && dButtonLatch (keys true true true true false)
                     && negb (enterButtonLatch (keys true true true true false)))
                 = true) by (vm_compute; reflexivity).
  assert (Hup : enterButton (keys true true true true false) && alarmState latched
                = false) by (vm_compute; reflexivity).
  destruct (Hheld Hrel Hup) as (Hev' & _ & _ & Hcleared).
  pose proof (Hgate enterBetweenReads latched Hlatched) as Hb.
  cbv zeta in Hb. destruct Hb as (_ & _ & Hboth).
  assert (Hrel' : (numberOfIncorrectCodes latched <? 5)
                  && (aButtonLatch enterBetweenReads && bButtonLatch enterBetweenReads
                      && cButtonLatch enterBetweenReads
                      && dButtonLatch enterBetweenReads
                      && negb (enterButtonLatch enterBetweenReads))
                  = true) by (vm_compute; reflexivity).
  assert (Hdown : enterButton enterBetweenReads && alarmState latched = true)
    by (vm_compute; reflexivity).
  destruct (Hboth Hrel' Hdown) as (r & Hcmp & Hr & _).
  split; [exact Hled|]. split; [exact Hev|]. split; [exact Hstill|].
  split; [exact Hlatched|]. split; [exact Hcleared|]. split; [exact Hev'|].
  split; [exists r; split; [exact Hcmp | exact Hr]|].
  split; [exact Hpass|].
  split; [exact (Hrun _ _ _ Hled Hpass Hq)|].
  split; [exact Hoff|]. split; [exact Hn|]. split; [exact Hon|].
  exact (Hopen (keys true true false false true) gasAlarm Hoff Hn eq_refl Hon).
Defined.


Lemma invalid_digit_asymmetry_witness :
  Exists (fun c => isDigit c = false) (bytes "1x00") /\
  (exists s',
     uartTask quiet ("4"%char :: bytes "1x00" ++ []) init = Some ([], s') /\
     incorrectCode s' = true /\ numberOfIncorrectCodes s' = 1) /\
  length (codeSequence init) = 4%nat /\
  exists s',
    uartTask quiet ("5"%char :: bytes "0x11" ++ []) init = Some ([], s') /\
    codeSequence s' = [0; 1; 1; 1].
Proof.
  destruct (invalid_digit_asymmetry (FA := QFloat)) as [Hentry Hreset].
  assert (Hbad : Exists (fun c => isDigit c = false) (bytes "1x00"))
    by (apply Exists_cons_tl, Exists_cons_hd; reflexivity).
  destruct (Hentry quiet init (bytes "1x00") [] eq_refl Hbad)
    as (s1 & Hrun1 & _ & Hinc & _ & Hn & _).
  destruct (Hreset quiet init (bytes "0x11") [] eq_refl eq_refl)
    as (s2 & Hrun2 & _ & Hcode).
  split; [exact Hbad|].
  split; [exists s1; split; [exact Hrun1|]; split; [exact Hinc | exact Hn]|].
  split; [reflexivity|].
  exists s2. split; [exact Hrun2 | exact Hcode].
Defined.


(** ** The further properties at concrete inputs *)

Lemma uartTask_blocks_iff_witness :
  uartTask quiet (bytes "411") init = None.
Proof.
  apply (uartTask_blocks_iff (FA := QFloat)).
  exists "4"%char, (bytes "11").
  split; [reflexivity|]. split; [left; reflexivity | cbn; lia].
Defined.

Lemma status_commands_change_nothing_witness :
  "1"%char <> "4"%char /\ "1"%char <> "5"%char /\
  exists s',
    uartTask quiet ["1"%char] gasAlarm = Some ([], s') /\
    alarmState s' = alarmState gasAlarm /\
    numberOfIncorrectCodes s' = numberOfIncorrectCodes gasAlarm /\
    codeSequence s' = codeSequence gasAlarm.
Proof.
  assert (H4 : "1"%char <> "4"%char) by discriminate.
  assert (H5 : "1"%char <> "5"%char) by discriminate.
  destruct (status_commands_change_nothing quiet "1"%char [] gasAlarm H4 H5)
    as (s' & Hrun & Ha & Hn & Hc & _).
  split; [exact H4|]. split; [exact H5|].
  exists s'. split; [exact Hrun|]. split; [exact Ha|]. split; [exact Hn | exact Hc].
Defined.

Lemma new_code_round_trip_witness :
  length (codeSequence atThreshold) = 4%nat /\ length (bytes "0110") = 4%nat /\
  Forall (fun c => isDigit c = true) (bytes "0110") /\
  exists s1 s2,
    uartTask quiet ("5"%char :: bytes "0110" ++ []) atThreshold = Some ([], s1) /\
    codeSequence s1 = map digitOf (bytes "0110") /\
    uartTask quiet ("4"%char :: bytes "0110" ++ []) s1 = Some ([], s2) /\
    numberOfIncorrectCodes s2 = 0 /\ alarmState s2 = false.
Proof.
  assert (Hc : length (codeSequence atThreshold) = 4%nat) by reflexivity.
  assert (Hb : length (bytes "0110") = 4%nat) by reflexivity.
  assert (Hd : Forall (fun c => isDigit c = true) (bytes "0110"))
    by (repeat constructor).
  destruct (new_code_round_trip quiet quiet atThreshold (bytes "0110") [] [] Hc Hb Hd)
    as (s1 & s2 & Hset & Hcode & _ & _ & _ & Hrun & _ & Hn & _ & Ha & _).
  split; [exact Hc|]. split; [exact Hb|]. split; [exact Hd|].
  exists s1, s2. split; [exact Hset|]. split; [exact Hcode|].
  split; [exact Hrun|]. split; [exact Hn | exact Ha].
Defined.

Lemma code_keeps_four_binary_digits_witness :
  reachable (pass gasPresent init) /\
  length (codeSequence (pass gasPresent init)) = 4%nat /\
  Forall (fun d => d = 0 \/ d = 1) (codeSequence (pass gasPresent init)) /\
  length (buttonsPressed (pass gasPresent init)) = 4%nat.
Proof.
  assert (Hr : reachable (pass gasPresent init))
    by exact (reachable_step gasPresent [] init _ reachable_init eq_refl).
  split; [exact Hr|]. exact (code_keeps_four_binary_digits _ Hr).
Defined.

Lemma active_alarm_has_blinking_time_witness :
  reachable (pass gasPresent init) /\
  alarmState (pass gasPresent init) = true /\
  gasDetectorState (pass gasPresent init)
  || overTempDetectorState (pass gasPresent init) = true /\
  (blinkingTime (pass gasPresent init) = Some 100
   \/ blinkingTime (pass gasPresent init) = Some 1000
   \/ blinkingTime (pass gasPresent init) = Some 500).
Proof.
  assert (Hr : reachable (pass gasPresent init))
    by exact (reachable_step gasPresent [] init _ reachable_init eq_refl).
  assert (Hon : alarmState (pass gasPresent init) = true) by (vm_compute; reflexivity).
  split; [exact Hr|]. split; [exact Hon|].
  exact (active_alarm_has_blinking_time _ Hr Hon).
Defined.

Lemma blink_timer_in_range_witness :
  reachable (pass gasPresent init) /\
  0 <= accumulatedTimeAlarm (pass gasPresent init) <= 990 /\
  accumulatedTimeAlarm (pass gasPresent init) mod 10 = 0.
Proof.
  assert (Hr : reachable (pass gasPresent init))
    by exact (reachable_step gasPresent [] init _ reachable_init eq_refl).
  split; [exact Hr|]. exact (blink_timer_in_range _ Hr).
Defined.

Lemma siren_never_driven_high_witness :
  reachable (pass gasPresent init) /\
  sirenPin (pass gasPresent init) = false /\
  sirenPinDirection gasAlarm = if alarmState gasAlarm then PinOutput else PinInput.
Proof.
  destruct (siren_never_driven_high (FA := QFloat)) as [Hdir Hpin].
  assert (Hr : reachable (pass gasPresent init))
    by exact (reachable_step gasPresent [] init _ reachable_init eq_refl).
  split; [exact Hr|]. split; [exact (Hpin _ Hr) | exact (Hdir gasPresent init)].
Defined.

Lemma alarm_activation_causes_witness :
  alarmState (alarmActivationUpdate gasPresent init) = true /\
  gasDetectorState (alarmActivationUpdate gasPresent init)
  = gasDetectorState init || negb (mq2 gasPresent) || alarmTestButton gasPresent /\
  alarmState (alarmActivationUpdate quiet init) = false /\
  gasDetectorState (alarmActivationUpdate quiet init) = false /\
  overTempDetectorState (alarmActivationUpdate quiet init) = false.
Proof.
  pose proof (alarm_activation_causes gasPresent init) as Hg. cbv zeta in Hg.
  destruct Hg as (_ & _ & Hon & _).
  pose proof (alarm_activation_causes quiet init) as Hq. cbv zeta in Hq.
  destruct Hq as (_ & _ & _ & Hoff).
  assert (H1 : alarmState (alarmActivationUpdate gasPresent init) = true)
    by (vm_compute; reflexivity).
  assert (H2 : alarmState (alarmActivationUpdate quiet init) = false)
    by (vm_compute; reflexivity).
  destruct (Hon H1) as [Hgas _].
  split; [exact H1|]. split; [exact Hgas|]. split; [exact H2 | exact (Hoff H2)].
Defined.

Lemma counter_drops_only_on_match_witness :
  mainLoopIteration (keys true true false false true) [] threeWrong
  = Some (pass (keys true true false false true) threeWrong) /\
  numberOfIncorrectCodes (pass (keys true true false false true) threeWrong)
  < numberOfIncorrectCodes threeWrong /\
  exists evs,
    events (pass (keys true true false false true) threeWrong)
    = events threeWrong ++ evs /\
    (Exists reportsMatch evs \/ INT_MAX - 1 <= numberOfIncorrectCodes threeWrong).
Proof.
  assert (Hrun : mainLoopIteration (keys true true false false true) [] threeWrong
                 = Some (pass (keys true true false false true) threeWrong))
    by reflexivity.
  assert (Hlt : numberOfIncorrectCodes
                  (pass (keys true true false false true) threeWrong)
                < numberOfIncorrectCodes threeWrong)
    by (vm_compute; reflexivity).
  pose proof (counter_drops_only_on_match _ _ _ _ Hrun) as H. cbv zeta in H.
  destruct H as (evs & Hev & _ & Hdrop).
  split; [exact Hrun|]. split; [exact Hlt|].
  exists evs. split; [exact Hev | exact (Hdrop Hlt)].
Defined.

Lemma keypad_lockout_is_terminal_witness :
  5 <= numberOfIncorrectCodes atThreshold /\
  mainLoop [(keys true true false false true, [])] atThreshold
  = Some (pass (keys true true false false true) atThreshold) /\
  Forall (fun tick => head (snd tick) <> Some "4"%char)
         [(keys true true false false true, @nil ascii)] /\
  numberOfIncorrectCodes (pass (keys true true false false true) atThreshold)
  = numberOfIncorrectCodes atThreshold /\
  exists evs,
    events (pass (keys true true false false true) atThreshold)
    = events atThreshold ++ evs /\ Forall isQuiet evs.
Proof.
  assert (Hn : 5 <= numberOfIncorrectCodes atThreshold) by (vm_compute; discriminate).
  assert (Hrun : mainLoop [(keys true true false false true, [])] atThreshold
                 = Some (pass (keys true true false false true) atThreshold))
    by reflexivity.
  assert (Hq : Forall (fun tick => head (snd tick) <> Some "4"%char)
                      [(keys true true false false true, @nil ascii)])
    by (constructor; [discriminate | constructor]).
  destruct (keypad_lockout_is_terminal _ _ _ Hn Hrun Hq) as (Hkeep & _ & Hev).
  split; [exact Hn|]. split; [exact Hrun|]. split; [exact Hq|].
  split; [exact Hkeep | exact Hev].
Defined.

Lemma buffer_holds_latest_samples_witness :
  length (lm35ReadingsArray init) = 100%nat /\ 0 <= lm35SampleIndex init < 100 /\
  (length [(quiet<|lm35 := 1 # 4|>, @nil ascii); (quiet, [])] <= 100)%nat /\
  mainLoop [(quiet<|lm35 := 1 # 4|>, []); (quiet, [])] init
  = Some (pass quiet (pass (quiet<|lm35 := 1 # 4|>) init)) /\
  lm35SampleIndex (pass quiet (pass (quiet<|lm35 := 1 # 4|>) init))
  = (lm35SampleIndex init + Z.of_nat 2) mod 100 /\
  lm35ReadingsArray (pass quiet (pass (quiet<|lm35 := 1 # 4|>) init))
    !! Z.to_nat ((lm35SampleIndex init + Z.of_nat 0) mod 100)
  = Some (1 # 4).
Proof.
  assert (Hl : length (lm35ReadingsArray init) = 100%nat) by reflexivity.
  assert (Hi : 0 <= lm35SampleIndex init < 100) by (cbn; lia).
  assert (Hs : (length [(quiet<|lm35 := 1 # 4|>, @nil ascii); (quiet, [])] <= 100)%nat)
    by (cbn; lia).
  assert (Hrun : mainLoop [(quiet<|lm35 := 1 # 4|>, []); (quiet, [])] init
                 = Some (pass quiet (pass (quiet<|lm35 := 1 # 4|>) init)))
    by reflexivity.
  destruct (buffer_holds_latest_samples _ _ _ Hl Hi Hs Hrun) as [Hidx Hslot].
  split; [exact Hl|]. split; [exact Hi|]. split; [exact Hs|]. split; [exact Hrun|].
  split; [exact Hidx|].
  exact (Hslot 0%nat (quiet<|lm35 := 1 # 4|>, []) eq_refl).
Defined.

Lemma uart_write_lengths_witness :
  uartTask gasPresent ["2"%char] init
  = Some ([], uartWrite ("Gas is being detected" +:+ CRLF) 22
                (emit (Printf "UART Task initiated.") init)) /\
  exists evs,
    events (uartWrite ("Gas is being detected" +:+ CRLF) 22
              (emit (Printf "UART Task initiated.") init))
    = events init ++ evs /\
    Forall (fun e => writesWholeText e
                     \/ e = UartWrite ("Gas is being detected" +:+ CRLF) 22
                     \/ exists buf, e = UartWrite buf 100) evs.
Proof.
  assert (Hrun : uartTask gasPresent ["2"%char] init
                 = Some ([], uartWrite ("Gas is being detected" +:+ CRLF) 22
                               (emit (Printf "UART Task initiated.") init)))
    by reflexivity.
  destruct (uart_write_lengths _ _ _ _ _ Hrun) as [_ Hev].
  split; [exact Hrun | exact Hev].
Defined.
